(** * LibrePCB: the footprint pad value class and the add-component editor state

    A shallow embedding of two translation units of the application:

    - [libs/librepcb/library/pkg/footprintpad.cpp], the library data class
      [FootprintPad] (module [Library] below), and
    - [src/project/schematics/fsm/ses_addcomponents.cpp], the schematic editor
      state [SES_AddComponents] (module [Project] below).

    Member functions become functions on records.  A function that may throw
    returns a [Result]; a function that writes through a reference threads the
    referenced object explicitly and reports it also when it throws.  Classes
    of the application that the two files only call (S-expressions, lengths,
    the undo stack, the GUI toolkit) are either small models, marked as such,
    or parameters: type class instances and the fields of the records
    [Toolkit] and [Externals], over which every statement quantifies.

    The definitions come first; the properties follow in the modules
    [FootprintPadSpec] and [AddComponentsSpec]. *)

From Stdlib Require Import ZArith String Ascii List Bool Lia.
From Stdlib Require Import DecimalString DecimalZ.
Import ListNotations.
Open Scope string_scope.
Open Scope list_scope.

Set Implicit Arguments.
Set Warnings "-register-all".

(** ** Exceptions and results *)

(** The exception classes that the two files throw or catch by name, and
    [FileParseError], with which the S-expression model reports unreadable
    input.  The catch clause [catch (Exception&)] matches every
    constructor. *)
Inductive Exception : Type :=
| LogicError
| RuntimeError
| FileParseError
| UserCanceled.

(** The outcome of a call that either returns a value or throws. *)
Inductive Result (A : Type) : Type :=
| Ok (a : A)
| Throw (e : Exception).

Arguments Ok {A} a.
Arguments Throw {A} e.

Definition Result_bind {A B : Type} (r : Result A) (k : A -> Result B) : Result B :=
  match r with
  | Ok a => k a
  | Throw e => Throw e
  end.

Declare Scope result_scope.
Delimit Scope result_scope with result.
Notation "x <- c ;; k" := (Result_bind c (fun x => k))
  (at level 61, c at next level, right associativity) : result_scope.

(** A call that does not fail with a [LogicError]. *)
Definition noLogicError {A : Type} (r : Result A) : Prop := r <> Throw LogicError.

(** Qt's [QString], compared code point by code point. *)
Definition QString : Type := string.

Definition QString_isEmpty (s : QString) : bool := String.eqb s EmptyString.

(** ** Value types of the common library *)

Module Common.

(** Modelled from the spec: the class [Length] is not among the sources; the
    spec only speaks of the pad's geometry.  A length is a whole number of
    nanometres, held in a signed 64-bit integer ([qint64]). *)
Record Length : Type := mkLength { toNm : Z }.

(** The range of the 64-bit member, and the value that the 64 low bits of an
    integer stand for in two's complement. *)
Definition int64_min : Z := -9223372036854775808.
Definition int64_max : Z := 9223372036854775807.

Definition inInt64 (z : Z) : Prop := (int64_min <= z <= int64_max)%Z.

Definition wrap64 (z : Z) : Z :=
  ((z + 9223372036854775808) mod 18446744073709551616 - 9223372036854775808)%Z.

(** [operator+] and [operator*]: the sum and the product of the 64-bit
    members.  A result outside the range wraps around, as the 64-bit machine
    arithmetic of the compiled class does. *)
Definition Length_add (a b : Length) : Length := mkLength (wrap64 (toNm a + toNm b)).
Definition Length_mul (a : Length) (k : Z) : Length := mkLength (wrap64 (toNm a * k)).
Definition Length_gtb (a : Length) (k : Z) : bool := (k <? toNm a)%Z.
Definition Length_leb (a : Length) (k : Z) : bool := (toNm a <=? k)%Z.
Definition Length_ltb (a : Length) (k : Z) : bool := (toNm a <? k)%Z.
Definition Length_eqb (a b : Length) : bool := (toNm a =? toNm b)%Z.

(** Modelled from the spec: the class [Angle] is not among the sources.  An
    angle is a whole number of microdegrees. *)
Record Angle : Type := mkAngle { toMicroDeg : Z }.

Definition Angle_eqb (a b : Angle) : bool := (toMicroDeg a =? toMicroDeg b)%Z.

(** [Angle::deg90()], unary minus, [operator-=] and [setAngleMicroDeg]; the
    last two keep the value within one turn, with the remainder of the
    source language (truncated division). *)
Definition Angle_deg90 : Angle := mkAngle 90000000.
Definition Angle_neg (a : Angle) : Angle := mkAngle (- toMicroDeg a).
Definition Angle_sub (a b : Angle) : Angle :=
  mkAngle (Z.rem (toMicroDeg a - toMicroDeg b) 360000000).
Definition Angle_setAngleMicroDeg (microdegrees : Z) : Angle :=
  mkAngle (Z.rem microdegrees 360000000).

(** Modelled from the spec: the class [Uuid] is not among the sources.  It
    wraps the textual form of the identifier; the null identifier is the one
    whose text is empty. *)
Record Uuid : Type := mkUuid { toStr : QString }.

Definition Uuid_isNull (u : Uuid) : bool := QString_isEmpty (toStr u).
Definition Uuid_eqb (a b : Uuid) : bool := String.eqb (toStr a) (toStr b).

(** Modelled from the spec: the class [Point] is not among the sources.  A
    point is a pair of lengths. *)
Record Point : Type := mkPoint { getX : Length; getY : Length }.

Definition Point_eqb (a b : Point) : bool :=
  Length_eqb (getX a) (getX b) && Length_eqb (getY a) (getY b).

(** *** Conversion of values to and from token text *)

(** The template functions that turn a value into the text of a token and
    back.  Their specialisations for [Uuid], [Length] and [Angle] are not
    among the sources, so they are instances supplied by the caller;
    [stringToObject] answers [None] where the specialisation throws. *)
Class StringCodec (T : Type) : Type := {
  serializeToString : T -> QString;
  stringToObject : QString -> option T;
  defaultObject : T
}.

(** The contract between the two directions of a specialisation: on the
    values in [dom] the text is not empty and converts back to the value. *)
Definition CodecRoundTrip {T : Type} (c : StringCodec T) (dom : T -> Prop) : Prop :=
  forall x : T, dom x ->
    QString_isEmpty (serializeToString x) = false /\
    stringToObject (serializeToString x) = Some x.

#[export] Instance QString_codec : StringCodec QString := {
  serializeToString := fun s => s;
  stringToObject := fun s => Some s;
  defaultObject := EmptyString
}.

(** A textual form of whole numbers, for concrete runs: the decimal digits,
    with a minus sign for negative numbers. *)
Definition Z_toString (z : Z) : QString := NilZero.string_of_int (Z.to_int z).
Definition Z_fromString (s : QString) : option Z :=
  option_map Z.of_int (NilZero.int_of_string s).

Definition decimalLength : StringCodec Length := {|
  serializeToString := fun l => Z_toString (toNm l);
  stringToObject := fun s => option_map mkLength (Z_fromString s);
  defaultObject := mkLength 0
|}.

Definition decimalAngle : StringCodec Angle := {|
  serializeToString := fun a => Z_toString (toMicroDeg a);
  stringToObject := fun s => option_map mkAngle (Z_fromString s);
  defaultObject := mkAngle 0
|}.

Definition plainUuid : StringCodec Uuid := {|
  serializeToString := toStr;
  stringToObject := fun s => Some (mkUuid s);
  defaultObject := mkUuid EmptyString
|}.

(** *** S-expressions *)

(** Modelled from the spec: the class [SExpression] is not among the sources;
    the spec only says that the pad is serialized.  The model is the tree that
    the calls in footprintpad.cpp presuppose: a node is a list with a name and
    children, a token, a quoted string or a line break. *)
Inductive SExpression : Type :=
| SList (name : QString) (children : list SExpression)
| SToken (value : QString)
| SString (value : QString)
| SLineBreak.

Definition createList (name : QString) : SExpression := SList name [].
Definition createToken (token : QString) : SExpression := SToken token.

Definition getChildren (e : SExpression) : list SExpression :=
  match e with SList _ cs => cs | _ => [] end.

(** Modelled from the spec: [SExpression::appendChild] (not among the
    sources).  The child goes to the end of a list node, after a line break
    when one is asked for; any other node refuses children. *)
Definition appendChild (child : SExpression) (linebreak : bool) (e : SExpression)
  : Result SExpression :=
  match e with
  | SList name cs =>
      Ok (SList name (cs ++ (if linebreak then [SLineBreak] else []) ++ [child]))
  | _ => Throw LogicError
  end.

(** Modelled from the spec: [SExpression::appendToken<T>] (not among the
    sources): the value's text becomes a token child. *)
Definition appendToken {T : Type} {c : StringCodec T} (token : T) (e : SExpression)
  : Result SExpression :=
  appendChild (createToken (serializeToString token)) false e.

(** Modelled from the spec: [SExpression::appendTokenChild<T>] (not among the
    sources): a new list named [child] that holds the one token is appended.
    The source appends the empty list first and fills it in place. *)
Definition appendTokenChild {T : Type} {c : StringCodec T}
    (child : QString) (token : T) (linebreak : bool) (e : SExpression)
  : Result SExpression :=
  (l <- appendToken token (createList child) ;;
   appendChild l linebreak e)%result.

(** Modelled from the spec: [SExpression::getChildByIndex] (not among the
    sources). *)
Definition getChildByIndex (index : nat) (e : SExpression) : Result SExpression :=
  match nth_error (getChildren e) index with
  | Some c => Ok c
  | None => Throw FileParseError
  end.

Definition isListNamed (name : QString) (e : SExpression) : bool :=
  match e with
  | SList n _ => String.eqb n name
  | _ => false
  end.

(** Modelled from the spec: [SExpression::getChildByPath] (not among the
    sources), for a path of one name, which is all that footprintpad.cpp
    asks for: the first child that is a list of that name. *)
Definition getChildByPath (path : QString) (e : SExpression) : Result SExpression :=
  match find (isListNamed path) (getChildren e) with
  | Some c => Ok c
  | None => Throw FileParseError
  end.

(** Modelled from the spec: [SExpression::getStringOrToken] (not among the
    sources). *)
Definition getStringOrToken (throwIfEmpty : bool) (e : SExpression) : Result QString :=
  match e with
  | SToken v | SString v =>
      if throwIfEmpty && QString_isEmpty v then Throw FileParseError else Ok v
  | _ => Throw FileParseError
  end.

(** Modelled from the spec: [SExpression::getValue<T>] (not among the
    sources): the node's text converted to a [T]; an empty text stands for
    the default value unless [throwIfEmpty] is set. *)
Definition getValue {T : Type} {c : StringCodec T} (throwIfEmpty : bool) (e : SExpression)
  : Result T :=
  (s <- getStringOrToken throwIfEmpty e ;;
   if QString_isEmpty s then Ok defaultObject
   else match stringToObject s with
        | Some v => Ok v
        | None => Throw FileParseError
        end)%result.

(** Modelled from the spec: [SExpression::getValueByPath<T>] (not among the
    sources): the value of the first child of the list found at [path]. *)
Definition getValueByPath {T : Type} {c : StringCodec T}
    (path : QString) (throwIfEmpty : bool) (e : SExpression) : Result T :=
  (l <- getChildByPath path e ;;
   v <- getChildByIndex 0 l ;;
   getValue throwIfEmpty v)%result.

(** Modelled from the spec: [Point::serializeToDomElement] (not among the
    sources): a list of the given name holding the two coordinates. *)
Definition Point_serializeToDomElement {c : StringCodec Length}
    (p : Point) (name : QString) : Result SExpression :=
  (r <- appendToken (getX p) (createList name) ;;
   appendToken (getY p) r)%result.

(** Modelled from the spec: the constructor [Point::Point(const SExpression&)]
    (not among the sources): the first two children are the coordinates. *)
Definition Point_fromSExpression {c : StringCodec Length} (node : SExpression)
  : Result Point :=
  (cx <- getChildByIndex 0 node ;;
   x <- getValue true cx ;;
   cy <- getChildByIndex 1 node ;;
   y <- getValue true cy ;;
   Ok (mkPoint x y))%result.

End Common.

(** ** The footprint pad (namespace librepcb::library) *)

Module Library.
Import Common.

Inductive Shape : Type := ROUND | RECT | OCTAGON.
Inductive BoardSide : Type := TOP | BOTTOM | THT.

Definition Shape_eqb (a b : Shape) : bool :=
  match a, b with
  | ROUND, ROUND | RECT, RECT | OCTAGON, OCTAGON => true
  | _, _ => false
  end.

Definition BoardSide_eqb (a b : BoardSide) : bool :=
  match a, b with
  | TOP, TOP | BOTTOM, BOTTOM | THT, THT => true
  | _, _ => false
  end.

(** The address of a [FootprintPadGraphicsItem]. *)
Definition GraphicsItemPtr : Type := nat.

(** The data members of [FootprintPad], in the order of the initialiser list
    of its constructor; the pointer to the graphics item is an optional
    address. *)
Record FootprintPad : Type := mkFootprintPad {
  mPackagePadUuid : Uuid;
  mPosition : Point;
  mRotation : Angle;
  mShape : Shape;
  mWidth : Length;
  mHeight : Length;
  mDrillDiameter : Length;
  mBoardSide : BoardSide;
  mRegisteredGraphicsItem : option GraphicsItemPtr
}.

(** *** Static methods *)

Definition stringToShape (shape : QString) : Result Shape :=
  if String.eqb shape "round" then Ok ROUND
  else if String.eqb shape "rect" then Ok RECT
  else if String.eqb shape "octagon" then Ok OCTAGON
  else Throw RuntimeError.

Definition shapeToString (shape : Shape) : QString :=
  match shape with
  | ROUND => "round"
  | RECT => "rect"
  | OCTAGON => "octagon"
  end.

Definition stringToBoardSide (side : QString) : Result BoardSide :=
  if String.eqb side "top" then Ok TOP
  else if String.eqb side "bottom" then Ok BOTTOM
  else if String.eqb side "tht" then Ok THT
  else Throw RuntimeError.

Definition boardSideToString (side : BoardSide) : QString :=
  match side with
  | TOP => "top"
  | BOTTOM => "bottom"
  | THT => "tht"
  end.

(** *** Constructors, validity, operators *)

(** [FootprintPad::FootprintPad(const Uuid&, const Point&, ...)]. *)
Definition FootprintPad_new (padUuid : Uuid) (pos : Point) (rot : Angle) (shape : Shape)
    (width height drillDiameter : Length) (side : BoardSide) : FootprintPad :=
  mkFootprintPad padUuid pos rot shape width height drillDiameter side None.

Definition checkAttributesValidity (p : FootprintPad) : bool :=
  if Uuid_isNull (mPackagePadUuid p) then false
  else if Length_leb (mWidth p) 0 then false
  else if Length_leb (mHeight p) 0 then false
  else if Length_ltb (mDrillDiameter p) 0 then false
  else true.

(** [FootprintPad::operator==]: each [!=] of the source is the negation of
    the member's equality. *)
Definition operator_eq (this rhs : FootprintPad) : bool :=
  if negb (Uuid_eqb (mPackagePadUuid this) (mPackagePadUuid rhs)) then false
  else if negb (Point_eqb (mPosition this) (mPosition rhs)) then false
  else if negb (Angle_eqb (mRotation this) (mRotation rhs)) then false
  else if negb (Shape_eqb (mShape this) (mShape rhs)) then false
  else if negb (Length_eqb (mWidth this) (mWidth rhs)) then false
  else if negb (Length_eqb (mHeight this) (mHeight rhs)) then false
  else if negb (Length_eqb (mDrillDiameter this) (mDrillDiameter rhs)) then false
  else if negb (BoardSide_eqb (mBoardSide this) (mBoardSide rhs)) then false
  else true.

(** [FootprintPad::operator=]: the eight assignments, one after the other;
    the registered graphics item of [this] is not touched. *)
Definition operator_assign (this rhs : FootprintPad) : FootprintPad :=
  let this := mkFootprintPad (mPackagePadUuid rhs) (mPosition this) (mRotation this)
                (mShape this) (mWidth this) (mHeight this) (mDrillDiameter this)
                (mBoardSide this) (mRegisteredGraphicsItem this) in
  let this := mkFootprintPad (mPackagePadUuid this) (mPosition rhs) (mRotation this)
                (mShape this) (mWidth this) (mHeight this) (mDrillDiameter this)
                (mBoardSide this) (mRegisteredGraphicsItem this) in
  let this := mkFootprintPad (mPackagePadUuid this) (mPosition this) (mRotation rhs)
                (mShape this) (mWidth this) (mHeight this) (mDrillDiameter this)
                (mBoardSide this) (mRegisteredGraphicsItem this) in
  let this := mkFootprintPad (mPackagePadUuid this) (mPosition this) (mRotation this)
                (mShape rhs) (mWidth this) (mHeight this) (mDrillDiameter this)
                (mBoardSide this) (mRegisteredGraphicsItem this) in
  let this := mkFootprintPad (mPackagePadUuid this) (mPosition this) (mRotation this)
                (mShape this) (mWidth rhs) (mHeight this) (mDrillDiameter this)
                (mBoardSide this) (mRegisteredGraphicsItem this) in
  let this := mkFootprintPad (mPackagePadUuid this) (mPosition this) (mRotation this)
                (mShape this) (mWidth this) (mHeight rhs) (mDrillDiameter this)
                (mBoardSide this) (mRegisteredGraphicsItem this) in
  let this := mkFootprintPad (mPackagePadUuid this) (mPosition this) (mRotation this)
                (mShape this) (mWidth this) (mHeight this) (mDrillDiameter rhs)
                (mBoardSide this) (mRegisteredGraphicsItem this) in
  mkFootprintPad (mPackagePadUuid this) (mPosition this) (mRotation this)
    (mShape this) (mWidth this) (mHeight this) (mDrillDiameter this)
    (mBoardSide rhs) (mRegisteredGraphicsItem this).

(** [FootprintPad::FootprintPad(const FootprintPad&)]: the new object starts
    from whatever its storage holds ([raw]), gets a null graphics item and is
    then assigned from [other]. *)
Definition FootprintPad_copy (raw other : FootprintPad) : FootprintPad :=
  let this := mkFootprintPad (mPackagePadUuid raw) (mPosition raw) (mRotation raw)
                (mShape raw) (mWidth raw) (mHeight raw) (mDrillDiameter raw)
                (mBoardSide raw) None in
  operator_assign this other.

(** *** Getters and setters

    The path and painter classes and the layer names are those of the common
    library and of the GUI toolkit; the pad only passes their values on, so
    they are the fields of a parameter here. *)
Record Toolkit : Type := {
  (* the class Path of the common library *)
  Path : Type;
  Path_empty : Path;
  Path_obround : Length -> Length -> Path;
  Path_centeredRect : Length -> Length -> Path;
  Path_octagon : Length -> Length -> Path;
  (* pixels *)
  qreal : Type;
  Length_toPx : Length -> qreal;
  qreal_half : qreal -> qreal;
  (* the painter path of the GUI toolkit *)
  QPainterPath : Type;
  Path_toQPainterPathPx : Path -> QPainterPath;
  QPainterPath_setFillRule_OddEvenFill : QPainterPath -> QPainterPath;
  QPainterPath_addEllipse_origin : qreal -> qreal -> QPainterPath -> QPainterPath;
  (* the layer names of GraphicsLayer *)
  sTopCopper : QString;
  sBotCopper : QString;
  sBoardPadsTht : QString;
  GraphicsLayer_isCopperLayer : QString -> bool
}.

Section Graphics.

Variable tk : Toolkit.

Definition getLayerName (p : FootprintPad) : QString :=
  match mBoardSide p with
  | TOP => sTopCopper tk
  | BOTTOM => sBotCopper tk
  | THT => sBoardPadsTht tk
  end.

Definition isOnLayer (p : FootprintPad) (name : QString) : bool :=
  match mBoardSide p with
  | THT => GraphicsLayer_isCopperLayer tk name
  | _ => String.eqb name (getLayerName p)
  end.

Definition getOutline (p : FootprintPad) (expansion : Length) : Path tk :=
  let width := Length_add (mWidth p) (Length_mul expansion 2) in
  let height := Length_add (mHeight p) (Length_mul expansion 2) in
  if Length_gtb width 0 && Length_gtb height 0 then
    match mShape p with
    | ROUND => Path_obround tk width height
    | RECT => Path_centeredRect tk width height
    | OCTAGON => Path_octagon tk width height
    end
  else Path_empty tk.

Definition toQPainterPathPx (p : FootprintPad) (expansion : Length) : QPainterPath tk :=
  let q := Path_toQPainterPathPx tk (getOutline p expansion) in
  match mBoardSide p with
  | THT =>
      let q := QPainterPath_setFillRule_OddEvenFill tk q in
      QPainterPath_addEllipse_origin tk
        (qreal_half tk (Length_toPx tk (mDrillDiameter p)))
        (qreal_half tk (Length_toPx tk (mDrillDiameter p))) q
  | _ => q
  end.

(** A call that a setter makes on the registered graphics item. *)
Inductive GraphicsItemCall : Type :=
| Item_setPosition (pos : Point)
| Item_setRotation (rot : Angle)
| Item_setShape (shape : QPainterPath tk)
| Item_setLayerName (name : QString).

(** [if (mRegisteredGraphicsItem) mRegisteredGraphicsItem->call]. *)
Definition onRegisteredItem (p : FootprintPad) (call : GraphicsItemCall)
  : list (GraphicsItemPtr * GraphicsItemCall) :=
  match mRegisteredGraphicsItem p with
  | Some item => [(item, call)]
  | None => []
  end.

(** A setter returns the pad after the assignment and the calls it made on
    the graphics item, in order.  [toQPainterPathPx()] without an argument
    is the call with the default expansion of the declaration, a zero
    length. *)
Definition setPosition (pos : Point) (p : FootprintPad) :=
  let p := mkFootprintPad (mPackagePadUuid p) pos (mRotation p) (mShape p) (mWidth p)
             (mHeight p) (mDrillDiameter p) (mBoardSide p) (mRegisteredGraphicsItem p) in
  (p, onRegisteredItem p (Item_setPosition (mPosition p))).

Definition setPackagePadUuid (pad : Uuid) (p : FootprintPad) :=
  let p := mkFootprintPad pad (mPosition p) (mRotation p) (mShape p) (mWidth p)
             (mHeight p) (mDrillDiameter p) (mBoardSide p) (mRegisteredGraphicsItem p) in
  (p, @nil (GraphicsItemPtr * GraphicsItemCall)).

Definition setRotation (rot : Angle) (p : FootprintPad) :=
  let p := mkFootprintPad (mPackagePadUuid p) (mPosition p) rot (mShape p) (mWidth p)
             (mHeight p) (mDrillDiameter p) (mBoardSide p) (mRegisteredGraphicsItem p) in
  (p, onRegisteredItem p (Item_setRotation (mRotation p))).

Definition setShape (shape : Shape) (p : FootprintPad) :=
  let p := mkFootprintPad (mPackagePadUuid p) (mPosition p) (mRotation p) shape (mWidth p)
             (mHeight p) (mDrillDiameter p) (mBoardSide p) (mRegisteredGraphicsItem p) in
  (p, onRegisteredItem p (Item_setShape (toQPainterPathPx p (mkLength 0)))).

Definition setWidth (width : Length) (p : FootprintPad) :=
  let p := mkFootprintPad (mPackagePadUuid p) (mPosition p) (mRotation p) (mShape p) width
             (mHeight p) (mDrillDiameter p) (mBoardSide p) (mRegisteredGraphicsItem p) in
  (p, onRegisteredItem p (Item_setShape (toQPainterPathPx p (mkLength 0)))).

Definition setHeight (height : Length) (p : FootprintPad) :=
  let p := mkFootprintPad (mPackagePadUuid p) (mPosition p) (mRotation p) (mShape p) (mWidth p)
             height (mDrillDiameter p) (mBoardSide p) (mRegisteredGraphicsItem p) in
  (p, onRegisteredItem p (Item_setShape (toQPainterPathPx p (mkLength 0)))).

Definition setDrillDiameter (diameter : Length) (p : FootprintPad) :=
  let p := mkFootprintPad (mPackagePadUuid p) (mPosition p) (mRotation p) (mShape p) (mWidth p)
             (mHeight p) diameter (mBoardSide p) (mRegisteredGraphicsItem p) in
  (p, onRegisteredItem p (Item_setShape (toQPainterPathPx p (mkLength 0)))).

Definition setBoardSide (side : BoardSide) (p : FootprintPad) :=
  let p := mkFootprintPad (mPackagePadUuid p) (mPosition p) (mRotation p) (mShape p) (mWidth p)
             (mHeight p) (mDrillDiameter p) side (mRegisteredGraphicsItem p) in
  (p, onRegisteredItem p (Item_setLayerName (getLayerName p))
      ++ onRegisteredItem p (Item_setShape (toQPainterPathPx p (mkLength 0)))).

End Graphics.

(** *** General methods *)

(** [registerGraphicsItem] and [unregisterGraphicsItem]; the assertions are
    those of the release build, no code. *)
Definition registerGraphicsItem (item : GraphicsItemPtr) (p : FootprintPad) : FootprintPad :=
  mkFootprintPad (mPackagePadUuid p) (mPosition p) (mRotation p) (mShape p) (mWidth p)
    (mHeight p) (mDrillDiameter p) (mBoardSide p) (Some item).

Definition unregisterGraphicsItem (item : GraphicsItemPtr) (p : FootprintPad) : FootprintPad :=
  mkFootprintPad (mPackagePadUuid p) (mPosition p) (mRotation p) (mShape p) (mWidth p)
    (mHeight p) (mDrillDiameter p) (mBoardSide p) None.

(** *** Serialization *)

Section Serialization.

Context {Uuid_codec : StringCodec Uuid}.
Context {Length_codec : StringCodec Length}.
Context {Angle_codec : StringCodec Angle}.

(** A member function that appends to the node [root] it got by reference:
    it answers the outcome together with the node as the call left it. *)
Definition Appender : Type := SExpression -> Result unit * SExpression.

(** One appending call on [root]; a call that throws appends nothing. *)
Definition append (f : SExpression -> Result SExpression) : Appender :=
  fun root =>
    match f root with
    | Ok root' => (Ok tt, root')
    | Throw e => (Throw e, root)
    end.

Definition andThen (a b : Appender) : Appender :=
  fun root =>
    match a root with
    | (Ok _, root') => b root'
    | (Throw e, root') => (Throw e, root')
    end.

(** The argument of [appendChild] is evaluated before the call. *)
Definition appendResult (child : Result SExpression) (linebreak : bool) : Appender :=
  fun root =>
    match child with
    | Ok c => append (appendChild c linebreak) root
    | Throw e => (Throw e, root)
    end.

Definition serialize (p : FootprintPad) : Appender :=
  fun root =>
    if negb (checkAttributesValidity p) then (Throw LogicError, root)
    else
      andThen (append (appendToken (mPackagePadUuid p)))
     (andThen (append (appendTokenChild "side" (boardSideToString (mBoardSide p)) false))
     (andThen (append (appendTokenChild "shape" (shapeToString (mShape p)) false))
     (andThen (appendResult (Point_serializeToDomElement (mPosition p) "pos") true)
     (andThen (append (appendTokenChild "rot" (mRotation p) false))
     (andThen (appendResult
                 (Point_serializeToDomElement (mkPoint (mWidth p) (mHeight p)) "size") false)
              (append (appendTokenChild "drill" (mDrillDiameter p) false)))))))
      root.

(** The children that [serialize] appends for a valid pad, written out for
    the statements about it. *)
Definition serialized (p : FootprintPad) : list SExpression :=
  [ SToken (serializeToString (mPackagePadUuid p));
    SList "side" [SToken (boardSideToString (mBoardSide p))];
    SList "shape" [SToken (shapeToString (mShape p))];
    SLineBreak;
    SList "pos" [SToken (serializeToString (getX (mPosition p)));
                 SToken (serializeToString (getY (mPosition p)))];
    SList "rot" [SToken (serializeToString (mRotation p))];
    SList "size" [SToken (serializeToString (mWidth p));
                  SToken (serializeToString (mHeight p))];
    SList "drill" [SToken (serializeToString (mDrillDiameter p))] ].

(** The body of [FootprintPad::FootprintPad(const SExpression&)] up to its
    last statement: the attributes are read in the order of the source. *)
Definition readAttributes (node : SExpression) : Result FootprintPad :=
  (c0 <- getChildByIndex 0 node ;;
   uuid <- getValue (T:=Uuid) true c0 ;;
   posNode <- getChildByPath "pos" node ;;
   pos <- Point_fromSExpression posNode ;;
   rot <- getValueByPath (T:=Angle) "rot" true node ;;
   sideStr <- getValueByPath (T:=QString) "side" true node ;;
   side <- stringToBoardSide sideStr ;;
   shapeStr <- getValueByPath (T:=QString) "shape" true node ;;
   shape <- stringToShape shapeStr ;;
   drill <- getValueByPath (T:=Length) "drill" true node ;;
   sizeNode <- getChildByPath "size" node ;;
   size <- Point_fromSExpression sizeNode ;;
   sizeNode' <- getChildByPath "size" node ;;
   size' <- Point_fromSExpression sizeNode' ;;
   Ok (mkFootprintPad uuid pos rot shape (getX size) (getY size') drill side None))%result.

(** [FootprintPad::FootprintPad(const SExpression&)]. *)
Definition FootprintPad_fromSExpression (node : SExpression) : Result FootprintPad :=
  (p <- readAttributes node ;;
   if negb (checkAttributesValidity p) then Throw LogicError else Ok p)%result.

End Serialization.

(** *** Setters as values

    One call of a setter, for statements about sequences of calls:
    [runSetter] is the pad that the named setter of the source leaves. *)
Inductive Setter : Type :=
| SetPosition (pos : Point)
| SetPackagePadUuid (pad : Uuid)
| SetRotation (rot : Angle)
| SetShape (shape : Shape)
| SetWidth (width : Length)
| SetHeight (height : Length)
| SetDrillDiameter (diameter : Length)
| SetBoardSide (side : BoardSide).

Definition runSetter (tk : Toolkit) (c : Setter) (p : FootprintPad) : FootprintPad :=
  match c with
  | SetPosition pos => fst (setPosition tk pos p)
  | SetPackagePadUuid pad => fst (setPackagePadUuid tk pad p)
  | SetRotation rot => fst (setRotation tk rot p)
  | SetShape shape => fst (setShape tk shape p)
  | SetWidth width => fst (setWidth tk width p)
  | SetHeight height => fst (setHeight tk height p)
  | SetDrillDiameter diameter => fst (setDrillDiameter tk diameter p)
  | SetBoardSide side => fst (setBoardSide tk side p)
  end.

(** The two calls are calls of the same setter. *)
Definition sameSetter (a b : Setter) : bool :=
  match a, b with
  | SetPosition _, SetPosition _
  | SetPackagePadUuid _, SetPackagePadUuid _
  | SetRotation _, SetRotation _
  | SetShape _, SetShape _
  | SetWidth _, SetWidth _
  | SetHeight _, SetHeight _
  | SetDrillDiameter _, SetDrillDiameter _
  | SetBoardSide _, SetBoardSide _ => true
  | _, _ => false
  end.

(** The calls that the named setter makes on the graphics item. *)
Definition callsOfSetter (tk : Toolkit) (c : Setter) (p : FootprintPad)
  : list (GraphicsItemPtr * GraphicsItemCall tk) :=
  match c with
  | SetPosition pos => snd (setPosition tk pos p)
  | SetPackagePadUuid pad => snd (setPackagePadUuid tk pad p)
  | SetRotation rot => snd (setRotation tk rot p)
  | SetShape shape => snd (setShape tk shape p)
  | SetWidth width => snd (setWidth tk width p)
  | SetHeight height => snd (setHeight tk height p)
  | SetDrillDiameter diameter => snd (setDrillDiameter tk diameter p)
  | SetBoardSide side => snd (setBoardSide tk side p)
  end.


(** A toolkit that keeps paths and pixel values as terms, for concrete
    runs. *)
Inductive SymbolicPath : Type :=
| NoPath
| Obround (width height : Length)
| CenteredRect (width height : Length)
| Octagon (width height : Length).

Inductive SymbolicReal : Type :=
| Px (l : Length)
| Half (r : SymbolicReal).

Inductive SymbolicPainterPath : Type :=
| Outline (p : SymbolicPath)
| OddEvenFill (q : SymbolicPainterPath)
| WithEllipse (rx ry : SymbolicReal) (q : SymbolicPainterPath).

Definition symbolicToolkit : Toolkit := {|
  Path := SymbolicPath;
  Path_empty := NoPath;
  Path_obround := Obround;
  Path_centeredRect := CenteredRect;
  Path_octagon := Octagon;
  qreal := SymbolicReal;
  Length_toPx := Px;
  qreal_half := Half;
  QPainterPath := SymbolicPainterPath;
  Path_toQPainterPathPx := Outline;
  QPainterPath_setFillRule_OddEvenFill := OddEvenFill;
  QPainterPath_addEllipse_origin := WithEllipse;
  sTopCopper := "top_cu";
  sBotCopper := "bot_cu";
  sBoardPadsTht := "brd_pad_tht";
  GraphicsLayer_isCopperLayer := fun name => String.eqb name "top_cu" || String.eqb name "bot_cu"
|}.

(** A through-hole pad, for concrete runs. *)
Definition examplePad : FootprintPad :=
  FootprintPad_new (mkUuid "d2c30518-5cd1-4ce9-a569-44f783a3f66a")
    (mkPoint (mkLength 1270000) (mkLength (-2540000))) (mkAngle 90000000)
    OCTAGON (mkLength 1500000) (mkLength 2500000) (mkLength 800000) THT.

(** A node as the application writes it, with a line break before [pos]. *)
Definition exampleNode : SExpression :=
  SList "pad"
    [ SToken "d2c30518-5cd1-4ce9-a569-44f783a3f66a";
      SList "side" [SToken "top"];
      SList "shape" [SToken "rect"];
      SLineBreak;
      SList "pos" [SToken "1270000"; SToken "-2540000"];
      SList "rot" [SToken "0"];
      SList "size" [SToken "600000"; SToken "900000"];
      SList "drill" [SToken "0"] ].

Definition exampleNodePad : FootprintPad :=
  FootprintPad_new (mkUuid "d2c30518-5cd1-4ce9-a569-44f783a3f66a")
    (mkPoint (mkLength 1270000) (mkLength (-2540000))) (mkAngle 0)
    RECT (mkLength 600000) (mkLength 900000) (mkLength 0) TOP.


End Library.

(** ** The editor state "add components" (namespace project) *)

Module Project.
Import Common.

(** Modelled from the spec: [SES_Base::ProcRetVal] is declared in a header
    that is not among the sources; these are the three values that the file
    returns. *)
Inductive ProcRetVal : Type := ForceStayInState | ForceLeaveState | PassToParentState.

(** Modelled from the spec: [SEE_Base::EventType_t] is declared in a header
    that is not among the sources; these are the types that
    ses_addcomponents.cpp names, and the others. *)
Inductive EventType : Type :=
| AbortCommand
| StartAddComponent
| Edit_RotateCW
| Edit_RotateCCW
| SchematicSceneEvent
| OtherEventType (n : nat).

Definition EventType_eqb (a b : EventType) : bool :=
  match a, b with
  | AbortCommand, AbortCommand
  | StartAddComponent, StartAddComponent
  | Edit_RotateCW, Edit_RotateCW
  | Edit_RotateCCW, Edit_RotateCCW
  | SchematicSceneEvent, SchematicSceneEvent => true
  | OtherEventType n, OtherEventType m => Nat.eqb n m
  | _, _ => false
  end.

(** Modelled from the spec: [QEvent::Type] of the GUI toolkit; these are the
    types that the file names, and the others. *)
Inductive QEventType : Type :=
| GraphicsSceneMouseMove
| GraphicsSceneMouseDoubleClick
| GraphicsSceneMousePress
| GraphicsSceneWheel
| OtherQEventType (n : nat).

(** Modelled from the spec: [Qt::MouseButton] of the GUI toolkit. *)
Inductive MouseButton : Type := LeftButton | RightButton | OtherButton (n : nat).

(** Modelled from the spec: [QUuid] of the GUI toolkit, a 128-bit value; the
    null identifier is zero. *)
Record QUuid : Type := mkQUuid { quuidBits : N }.
Definition QUuid_null : QUuid := mkQUuid 0.
Definition QUuid_isNull (u : QUuid) : bool := N.eqb (quuidBits u) 0.

(** Addresses of objects that live outside the state object. *)
Definition SchematicPtr : Type := nat.
Definition DialogPtr : Type := nat.
Definition GenCompPtr : Type := nat.
Definition SymbVarPtr : Type := nat.
Definition SymbVarItemPtr : Type := nat.
Definition SymbolInstancePtr : Type := nat.
Definition GenCompInstancePtr : Type := nat.
Definition UndoCommandPtr : Type := nat.

(** The data members that [SES_AddComponents] adds to [SES_Base], as the
    constructor initialises them; a pointer is an optional address. *)
Record SES_AddComponents : Type := mkState {
  mIsUndoCmdActive : bool;
  mAddGenCompDialog : option DialogPtr;
  mLastAngle : Angle;
  mGenComp : option GenCompPtr;
  mGenCompSymbVar : option SymbVarPtr;
  mCurrentSymbVarItem : option SymbVarItemPtr;
  mCurrentSymbolToPlace : option SymbolInstancePtr;
  mCurrentSymbolEditCommand : option UndoCommandPtr
}.

(** The constructor's initialiser list. *)
Definition SES_AddComponents_new : SES_AddComponents :=
  mkState false None (mkAngle 0) None None None None None.

Definition set_mIsUndoCmdActive (v : bool) (s : SES_AddComponents) :=
  mkState v (mAddGenCompDialog s) (mLastAngle s) (mGenComp s) (mGenCompSymbVar s)
    (mCurrentSymbVarItem s) (mCurrentSymbolToPlace s) (mCurrentSymbolEditCommand s).
Definition set_mAddGenCompDialog (v : option DialogPtr) (s : SES_AddComponents) :=
  mkState (mIsUndoCmdActive s) v (mLastAngle s) (mGenComp s) (mGenCompSymbVar s)
    (mCurrentSymbVarItem s) (mCurrentSymbolToPlace s) (mCurrentSymbolEditCommand s).
Definition set_mLastAngle (v : Angle) (s : SES_AddComponents) :=
  mkState (mIsUndoCmdActive s) (mAddGenCompDialog s) v (mGenComp s) (mGenCompSymbVar s)
    (mCurrentSymbVarItem s) (mCurrentSymbolToPlace s) (mCurrentSymbolEditCommand s).
Definition set_mGenComp (v : option GenCompPtr) (s : SES_AddComponents) :=
  mkState (mIsUndoCmdActive s) (mAddGenCompDialog s) (mLastAngle s) v (mGenCompSymbVar s)
    (mCurrentSymbVarItem s) (mCurrentSymbolToPlace s) (mCurrentSymbolEditCommand s).
Definition set_mGenCompSymbVar (v : option SymbVarPtr) (s : SES_AddComponents) :=
  mkState (mIsUndoCmdActive s) (mAddGenCompDialog s) (mLastAngle s) (mGenComp s) v
    (mCurrentSymbVarItem s) (mCurrentSymbolToPlace s) (mCurrentSymbolEditCommand s).
Definition set_mCurrentSymbVarItem (v : option SymbVarItemPtr) (s : SES_AddComponents) :=
  mkState (mIsUndoCmdActive s) (mAddGenCompDialog s) (mLastAngle s) (mGenComp s)
    (mGenCompSymbVar s) v (mCurrentSymbolToPlace s) (mCurrentSymbolEditCommand s).
Definition set_mCurrentSymbolToPlace (v : option SymbolInstancePtr) (s : SES_AddComponents) :=
  mkState (mIsUndoCmdActive s) (mAddGenCompDialog s) (mLastAngle s) (mGenComp s)
    (mGenCompSymbVar s) (mCurrentSymbVarItem s) v (mCurrentSymbolEditCommand s).
Definition set_mCurrentSymbolEditCommand (v : option UndoCommandPtr) (s : SES_AddComponents) :=
  mkState (mIsUndoCmdActive s) (mAddGenCompDialog s) (mLastAngle s) (mGenComp s)
    (mGenCompSymbVar s) (mCurrentSymbVarItem s) (mCurrentSymbolToPlace s) v.

(** *** Events *)

Section Machine.

(** The rest of the application as the state object sees it: [World] is the
    state of everything outside the object (project, undo stack, editor
    window, heap), and the classes below are only passed through. *)
Variable World : Type.
Variable QPointF : Type.
Variable Version : Type.
Variable FilePath : Type.

(** Modelled from the spec: [QEvent] of the GUI toolkit.  Objects of class
    [QGraphicsSceneMouseEvent] carry a scene position and a button. *)
Inductive QEvent : Type :=
| QGraphicsSceneMouseEvent (type : QEventType) (scenePos : QPointF) (button : MouseButton)
| QOtherEvent (type : QEventType).

Definition QEvent_type (q : QEvent) : QEventType :=
  match q with
  | QGraphicsSceneMouseEvent t _ _ => t
  | QOtherEvent t => t
  end.

(** [dynamic_cast<QGraphicsSceneMouseEvent*>(qevent)]. *)
Definition asMouseEvent (q : QEvent) : option (QPointF * MouseButton) :=
  match q with
  | QGraphicsSceneMouseEvent _ pos button => Some (pos, button)
  | QOtherEvent _ => None
  end.

(** Modelled from the spec: the event classes of the editor's state machine
    (their header is not among the sources).  An event is an object of class
    [SEE_Base] or of one of the two subclasses that the file casts to, each
    with the type tag that [getType] reads. *)
Inductive SEE_Base : Type :=
| SEE_Plain (type : EventType)
| SEE_StartAddComponent (type : EventType) (genComp symbVar : QUuid)
| SEE_RedirectedQEvent (type : EventType) (qevent : option QEvent).

Definition getType (e : SEE_Base) : EventType :=
  match e with
  | SEE_Plain t => t
  | SEE_StartAddComponent t _ _ => t
  | SEE_RedirectedQEvent t _ => t
  end.

(** [dynamic_cast<SEE_StartAddComponent*>(event)], with the two getters. *)
Definition asStartAddComponent (e : SEE_Base) : option (QUuid * QUuid) :=
  match e with
  | SEE_StartAddComponent _ g v => Some (g, v)
  | _ => None
  end.

(** Modelled from the spec: [SEE_RedirectedQEvent::getQEventFromSEE] (not
    among the sources): the wrapped [QEvent] of an event of that class, null
    for every other event. *)
Definition getQEventFromSEE (see : option SEE_Base) : option QEvent :=
  match see with
  | Some (SEE_RedirectedQEvent _ q) => q
  | _ => None
  end.

(** *** The surrounding application

    Every call that leaves the file.  A call that the application declares
    as throwing answers a [Result] next to the world it leaves behind. *)
Record Externals : Type := {
  (* the editor window and its view *)
  editor_getActiveSchematic : World -> option SchematicPtr;
  view_cursorScenePos : World -> Point;
  view_scenePosToPoint : QPointF -> World -> Point;
  ui_setToolAddComponentChecked : bool -> World -> World;
  msgBox_error : Exception -> World -> World;
  msgBox_couldNotAdd : Exception -> World -> World;
  msgBox_differentVersion : GenCompPtr -> Version -> World -> World;
  (* the component chooser dialog *)
  dialog_new : World -> DialogPtr * World;
  dialog_exec : DialogPtr -> World -> bool * World;
  dialog_getSelectedGenCompFilePath : DialogPtr -> World -> FilePath;
  dialog_getSelectedSymbVarUuid : DialogPtr -> World -> QUuid;
  dialog_delete : DialogPtr -> World -> World;
  (* the libraries *)
  genCompFile_read : FilePath -> World -> Result (QUuid * Version) * World;
  library_getGenComp : QUuid -> World -> option GenCompPtr;
  genComp_getUuid : GenCompPtr -> World -> QUuid;
  genComp_getVersion : GenCompPtr -> World -> Version;
  Version_eqb : Version -> Version -> bool;
  genComp_getSymbolVariantByUuid : GenCompPtr -> QUuid -> World -> option SymbVarPtr;
  symbVar_getUuid : SymbVarPtr -> World -> QUuid;
  symbVar_firstItem : SymbVarPtr -> World -> option SymbVarItemPtr;
  symbVar_getNextItem : SymbVarPtr -> option SymbVarItemPtr -> World -> option SymbVarItemPtr;
  item_getUuid : SymbVarItemPtr -> World -> QUuid;
  (* the undo stack of the project *)
  undo_beginCommand : QString -> World -> Result unit * World;
  undo_appendToCommand : UndoCommandPtr -> World -> Result unit * World;
  undo_endCommand : World -> Result unit * World;
  undo_abortCommand : World -> Result unit * World;
  (* the undo commands and the symbol instance *)
  cmdGenCompInstAdd_new : GenCompPtr -> SymbVarPtr -> World -> Result UndoCommandPtr * World;
  cmdGenCompInstAdd_getGenCompInstance : UndoCommandPtr -> World -> option GenCompInstancePtr;
  cmdSymbolInstanceAdd_new :
    SchematicPtr -> GenCompInstancePtr -> QUuid -> Point -> World ->
    Result UndoCommandPtr * World;
  cmdSymbolInstanceAdd_getSymbolInstance : UndoCommandPtr -> World -> option SymbolInstancePtr;
  cmdSymbolInstanceEdit_new : SymbolInstancePtr -> World -> UndoCommandPtr * World;
  cmdSymbolInstanceEdit_delete : UndoCommandPtr -> World -> World;
  cmdSymbolInstanceEdit_setPosition : UndoCommandPtr -> Point -> bool -> World -> World;
  cmdSymbolInstanceEdit_setRotation : UndoCommandPtr -> Angle -> bool -> World -> World;
  cmdSymbolInstanceEdit_rotate : UndoCommandPtr -> Angle -> Point -> bool -> World -> World;
  symbol_getPosition : SymbolInstancePtr -> World -> Point;
  symbol_getGenCompInstance : SymbolInstancePtr -> World -> GenCompInstancePtr
}.

Variable ext : Externals.

(** *** Member functions as state transformers

    A member function runs on the state object and the world.  It returns a
    value, leaves by an exception, or dereferences a null pointer, after
    which the source language promises nothing ([Undefined]).  [Q_ASSERT]
    is the release build's: no code. *)
Inductive Outcome (A : Type) : Type :=
| Returns (a : A) (s : SES_AddComponents) (w : World)
| Throws (e : Exception) (s : SES_AddComponents) (w : World)
| Undefined.

Arguments Returns {A} a s w.
Arguments Throws {A} e s w.
Arguments Undefined {A}.

Definition M (A : Type) : Type := SES_AddComponents -> World -> Outcome A.

Definition ret {A : Type} (a : A) : M A := fun s w => Returns a s w.

Definition bind {A B : Type} (c : M A) (k : A -> M B) : M B :=
  fun s w =>
    match c s w with
    | Returns a s' w' => k a s' w'
    | Throws e s' w' => Throws e s' w'
    | Undefined => Undefined
    end.

Definition throw {A : Type} (e : Exception) : M A := fun s w => Throws e s w.

(** [try { body } catch (...) { handler }]; the handler picks its clause by
    the class of the exception. *)
Definition tryCatch {A : Type} (body : M A) (handler : Exception -> M A) : M A :=
  fun s w =>
    match body s w with
    | Throws e s' w' => handler e s' w'
    | r => r
    end.

(** Reading and writing a data member. *)
Definition gets {A : Type} (f : SES_AddComponents -> A) : M A := fun s w => Returns (f s) s w.
Definition modify (f : SES_AddComponents -> SES_AddComponents) : M unit :=
  fun s w => Returns tt (f s) w.

(** Calls into the application: a getter, a procedure, a function with an
    effect, and a function that may throw. *)
Definition ask {A : Type} (f : World -> A) : M A := fun s w => Returns (f w) s w.
Definition tell (f : World -> World) : M unit := fun s w => Returns tt s (f w).
Definition call {A : Type} (f : World -> A * World) : M A :=
  fun s w => let (a, w') := f w in Returns a s w'.
Definition attempt {A : Type} (f : World -> Result A * World) : M A :=
  fun s w =>
    match f w with
    | (Ok a, w') => Returns a s w'
    | (Throw e, w') => Throws e s w'
    end.

(** [p->...] on a pointer that may be null. *)
Definition deref {A : Type} (p : option A) : M A :=
  fun s w =>
    match p with
    | Some a => Returns a s w
    | None => Undefined
    end.

End Machine.

Arguments Returns {World A} a s w.
Arguments Throws {World A} e s w.
Arguments Undefined {World A}.

Declare Scope machine_scope.
Delimit Scope machine_scope with machine.
Notation "x <- c ;; k" := (bind c (fun x => k))
  (at level 61, c at next level, right associativity) : machine_scope.
Notation "c ;; k" := (bind c (fun _ => k))
  (at level 61, right associativity) : machine_scope.

(** *** The member functions of [SES_AddComponents] *)

Section Methods.

Variable World : Type.
Variable QPointF : Type.
Variable Version : Type.
Variable FilePath : Type.
Variable ext : Externals World QPointF Version FilePath.

Local Open Scope machine_scope.

(** [delete mAddGenCompDialog]; deleting a null pointer does nothing. *)
Definition deleteDialog : M World unit :=
  d <- gets mAddGenCompDialog ;;
  match d with
  | Some dlg => tell (dialog_delete ext dlg)
  | None => ret tt
  end.

Definition abortCommand (showErrMsgBox : bool) : M World bool :=
  tryCatch
    ((* delete the current move command *)
     cmd <- gets mCurrentSymbolEditCommand ;;
     match cmd with
     | Some c => tell (cmdSymbolInstanceEdit_delete ext c)
     | None => ret tt
     end ;;
     modify (set_mCurrentSymbolEditCommand None) ;;
     (* abort the undo command *)
     active <- gets mIsUndoCmdActive ;;
     (if active then
        attempt (undo_abortCommand ext) ;;
        modify (set_mIsUndoCmdActive false)
      else ret tt) ;;
     (* reset attributes, go back to idle state *)
     modify (set_mGenComp None) ;;
     modify (set_mGenCompSymbVar None) ;;
     modify (set_mCurrentSymbVarItem None) ;;
     modify (set_mCurrentSymbolToPlace None) ;;
     ret true)
    (fun e =>
       (if showErrMsgBox then tell (msgBox_error ext e) else ret tt) ;;
       ret false).

Definition startAddingComponent (genComp symbVar : QUuid) : M World unit :=
  schematic <- ask (editor_getActiveSchematic ext) ;;
  match schematic with
  | None => throw LogicError
  | Some schematic =>
  (* get the scene position where the new symbol should be placed *)
  pos <- ask (view_cursorScenePos ext) ;;
  (if QUuid_isNull genComp || QUuid_isNull symbVar then
     (* show generic component chooser dialog *)
     d <- gets mAddGenCompDialog ;;
     dlg <- match d with
            | Some dlg => ret dlg
            | None =>
                dlg <- call (dialog_new ext) ;;
                modify (set_mAddGenCompDialog (Some dlg)) ;;
                ret dlg
            end ;;
     accepted <- call (dialog_exec ext dlg) ;;
     if negb accepted then throw UserCanceled
     else
       (* open the XML file *)
       path <- ask (dialog_getSelectedGenCompFilePath ext dlg) ;;
       file <- attempt (genCompFile_read ext path) ;;
       let (genCompUuid, genCompVersion) := file in
       (* search the generic component in the library *)
       gc <- ask (library_getGenComp ext genCompUuid) ;;
       modify (set_mGenComp gc) ;;
       match gc with
       | Some g =>
           v <- ask (genComp_getVersion ext g) ;;
           (if negb (Version_eqb ext v genCompVersion)
            then tell (msgBox_differentVersion ext g genCompVersion)
            else ret tt) ;;
           selected <- ask (dialog_getSelectedSymbVarUuid ext dlg) ;;
           sv <- ask (genComp_getSymbolVariantByUuid ext g selected) ;;
           modify (set_mGenCompSymbVar sv)
       | None =>
           (* copy the generic component to the project library *)
           throw RuntimeError
       end
   else
     (* search the generic component in the library *)
     gc <- ask (library_getGenComp ext genComp) ;;
     modify (set_mGenComp gc) ;;
     g <- deref gc ;;
     sv <- ask (genComp_getSymbolVariantByUuid ext g symbVar) ;;
     modify (set_mGenCompSymbVar sv)) ;;
  (* check pointers *)
  gc <- gets mGenComp ;;
  match gc with
  | None => throw LogicError
  | Some g =>
  sv <- gets mGenCompSymbVar ;;
  match sv with
  | None => throw LogicError
  | Some v =>
  (* start a new command *)
  attempt (undo_beginCommand ext "Add Generic Component to Schematic") ;;
  modify (set_mIsUndoCmdActive true) ;;
  (* create a new generic component instance and add it to the circuit *)
  cmd <- attempt (cmdGenCompInstAdd_new ext g v) ;;
  attempt (undo_appendToCommand ext cmd) ;;
  (* create the first symbol instance and add it to the schematic *)
  item <- ask (symbVar_firstItem ext v) ;;
  modify (set_mCurrentSymbVarItem item) ;;
  match item with
  | None => throw RuntimeError
  | Some it =>
  inst <- ask (cmdGenCompInstAdd_getGenCompInstance ext cmd) ;;
  inst <- deref inst ;;
  itemUuid <- ask (item_getUuid ext it) ;;
  cmd2 <- attempt (cmdSymbolInstanceAdd_new ext schematic inst itemUuid pos) ;;
  attempt (undo_appendToCommand ext cmd2) ;;
  symbol <- ask (cmdSymbolInstanceAdd_getSymbolInstance ext cmd2) ;;
  modify (set_mCurrentSymbolToPlace symbol) ;;
  (* add command to move the current symbol *)
  symbol <- deref symbol ;;
  edit <- call (cmdSymbolInstanceEdit_new ext symbol) ;;
  modify (set_mCurrentSymbolEditCommand (Some edit)) ;;
  angle <- gets mLastAngle ;;
  tell (cmdSymbolInstanceEdit_setRotation ext edit angle true)
  end end end end.

Definition entry (event : option (SEE_Base QPointF)) : M World bool :=
  (* only accept events of type SEE_StartAddComponent *)
  match event with
  | None => ret false
  | Some ev =>
  if negb (EventType_eqb (getType ev) StartAddComponent) then ret false
  else
  match asStartAddComponent ev with
  | None => ret false
  | Some (genComp, symbVar) =>
  modify (set_mLastAngle (Angle_setAngleMicroDeg 0)) ;;
  (* start adding the specified component *)
  started <-
    tryCatch
      (startAddingComponent genComp symbVar ;;
       ret true)
      (fun e =>
         match e with
         | UserCanceled => ret tt
         | _ => tell (msgBox_couldNotAdd ext e)
         end ;;
         active <- gets mIsUndoCmdActive ;;
         (if active then abortCommand false else ret true) ;;
         deleteDialog ;;
         modify (set_mAddGenCompDialog None) ;;
         ret false) ;;
  if negb started then ret false
  else
    (* update the command toolbar action *)
    tell (ui_setToolAddComponentChecked ext true) ;;
    ret true
  end end.

Definition exit (event : option (SEE_Base QPointF)) : M World bool :=
  ok <- abortCommand true ;;
  if negb ok then ret false
  else
    deleteDialog ;;
    modify (set_mAddGenCompDialog None) ;;
    tell (ui_setToolAddComponentChecked ext false) ;;
    ret true.

Definition QEventType_eqb (a b : QEventType) : bool :=
  match a, b with
  | GraphicsSceneMouseMove, GraphicsSceneMouseMove
  | GraphicsSceneMouseDoubleClick, GraphicsSceneMouseDoubleClick
  | GraphicsSceneMousePress, GraphicsSceneMousePress
  | GraphicsSceneWheel, GraphicsSceneWheel => true
  | OtherQEventType n, OtherQEventType m => Nat.eqb n m
  | _, _ => false
  end.

(** The body of the [try] block of the left mouse button: the current
    symbol is placed for good and the next one, if any, is started. *)
Definition placeCurrentSymbol (schematic : SchematicPtr) (pos : Point) : M World ProcRetVal :=
  (* place the current symbol finally *)
  cmd <- gets mCurrentSymbolEditCommand ;;
  edit <- deref cmd ;;
  tell (cmdSymbolInstanceEdit_setPosition ext edit pos false) ;;
  attempt (undo_appendToCommand ext edit) ;;
  modify (set_mCurrentSymbolEditCommand None) ;;
  attempt (undo_endCommand ext) ;;
  modify (set_mIsUndoCmdActive false) ;;
  attempt (undo_beginCommand ext "Add Symbol to Schematic") ;;
  modify (set_mIsUndoCmdActive true) ;;
  (* check if there is a next symbol to add *)
  sv <- gets mGenCompSymbVar ;;
  sv <- deref sv ;;
  current <- gets mCurrentSymbVarItem ;;
  next <- ask (symbVar_getNextItem ext sv current) ;;
  modify (set_mCurrentSymbVarItem next) ;;
  match next with
  | Some item =>
      (* create the next symbol instance and add it to the schematic *)
      symbol <- gets mCurrentSymbolToPlace ;;
      symbol <- deref symbol ;;
      inst <- ask (symbol_getGenCompInstance ext symbol) ;;
      itemUuid <- ask (item_getUuid ext item) ;;
      add <- attempt (cmdSymbolInstanceAdd_new ext schematic inst itemUuid pos) ;;
      attempt (undo_appendToCommand ext add) ;;
      symbol' <- ask (cmdSymbolInstanceAdd_getSymbolInstance ext add) ;;
      modify (set_mCurrentSymbolToPlace symbol') ;;
      (* add command to move the current symbol *)
      symbol' <- deref symbol' ;;
      edit' <- call (cmdSymbolInstanceEdit_new ext symbol') ;;
      modify (set_mCurrentSymbolEditCommand (Some edit')) ;;
      angle <- gets mLastAngle ;;
      tell (cmdSymbolInstanceEdit_setRotation ext edit' angle true) ;;
      ret ForceStayInState
  | None =>
      (* all symbols placed, start adding the next component *)
      gc <- gets mGenComp ;;
      gc <- deref gc ;;
      genCompUuid <- ask (genComp_getUuid ext gc) ;;
      symbVarUuid <- ask (symbVar_getUuid ext sv) ;;
      attempt (undo_endCommand ext) ;;
      modify (set_mIsUndoCmdActive false) ;;
      abortCommand false ;; (* reset attributes *)
      startAddingComponent genCompUuid symbVarUuid ;;
      ret ForceStayInState
  end.

Definition processSceneEvent (event : option (SEE_Base QPointF)) : M World ProcRetVal :=
  match getQEventFromSEE event with
  | None => ret PassToParentState
  | Some qevent =>
  schematic <- ask (editor_getActiveSchematic ext) ;;
  match schematic with
  | None => ret PassToParentState
  | Some schematic =>
  active <- gets mIsUndoCmdActive ;;
  if negb active then ret PassToParentState (* temporary *)
  else
  match QEvent_type qevent with
  | GraphicsSceneMouseMove =>
      sceneEvent <- deref (asMouseEvent qevent) ;;
      pos <- ask (view_scenePosToPoint ext (fst sceneEvent)) ;;
      (* set temporary position of the current symbol *)
      cmd <- gets mCurrentSymbolEditCommand ;;
      edit <- deref cmd ;;
      tell (cmdSymbolInstanceEdit_setPosition ext edit pos true) ;;
      ret PassToParentState
  | GraphicsSceneMouseDoubleClick
  | GraphicsSceneMousePress =>
      sceneEvent <- deref (asMouseEvent qevent) ;;
      pos <- ask (view_scenePosToPoint ext (fst sceneEvent)) ;;
      match snd sceneEvent with
      | LeftButton =>
          tryCatch
            (placeCurrentSymbol schematic pos)
            (fun e =>
               tell (msgBox_error ext e) ;;
               abortCommand false ;;
               ret ForceLeaveState)
      | RightButton =>
          (* rotate symbol *)
          modify (fun s => set_mLastAngle (Angle_sub (mLastAngle s) Angle_deg90) s) ;;
          cmd <- gets mCurrentSymbolEditCommand ;;
          edit <- deref cmd ;;
          angle <- gets mLastAngle ;;
          tell (cmdSymbolInstanceEdit_setRotation ext edit angle true) ;;
          ret ForceStayInState
      | OtherButton _ => ret PassToParentState
      end
  | _ =>
      (* Always accept graphics scene events, even if we do not react on
         some of the events!  Only the wheel event is ignored. *)
      if negb (QEventType_eqb (QEvent_type qevent) GraphicsSceneWheel)
      then ret ForceStayInState
      else ret PassToParentState
  end
  end end.

(** The two [catch] clauses that [process] uses twice. *)
Definition processHandler (e : Exception) : M World ProcRetVal :=
  match e with
  | UserCanceled => ret tt
  | _ => tell (msgBox_error ext e)
  end ;;
  ret PassToParentState.

Definition process (event : option (SEE_Base QPointF)) : M World ProcRetVal :=
  ev <- deref event ;;
  match getType ev with
  | AbortCommand =>
      d <- gets mAddGenCompDialog ;;
      match d with
      | Some _ =>
          tryCatch
            (ok <- abortCommand true ;;
             if negb ok then ret PassToParentState
             else
               modify (set_mLastAngle (Angle_setAngleMicroDeg 0)) ;; (* reset the angle *)
               startAddingComponent QUuid_null QUuid_null ;;
               ret ForceStayInState)
            processHandler
      | None => ret PassToParentState
      end
  | StartAddComponent =>
      tryCatch
        ((* start adding (another) component *)
         ok <- abortCommand true ;;
         if negb ok then ret PassToParentState
         else
           modify (set_mLastAngle (Angle_setAngleMicroDeg 0)) ;; (* reset the angle *)
           e <- deref (asStartAddComponent ev) ;;
           startAddingComponent (fst e) (snd e) ;;
           ret ForceStayInState)
        processHandler
  | Edit_RotateCW =>
      cmd <- gets mCurrentSymbolEditCommand ;;
      edit <- deref cmd ;;
      symbol <- gets mCurrentSymbolToPlace ;;
      symbol <- deref symbol ;;
      center <- ask (symbol_getPosition ext symbol) ;;
      tell (cmdSymbolInstanceEdit_rotate ext edit Angle_deg90 center true) ;;
      ret ForceStayInState
  | Edit_RotateCCW =>
      cmd <- gets mCurrentSymbolEditCommand ;;
      edit <- deref cmd ;;
      symbol <- gets mCurrentSymbolToPlace ;;
      symbol <- deref symbol ;;
      center <- ask (symbol_getPosition ext symbol) ;;
      tell (cmdSymbolInstanceEdit_rotate ext edit (Angle_neg Angle_deg90) center true) ;;
      ret ForceStayInState
  | SchematicSceneEvent => processSceneEvent event
  | OtherEventType _ => ret PassToParentState
  end.

End Methods.

(** *** What the statements speak about *)

(** The idle state of the object, as far as [abortCommand] resets it. *)
Definition isReset (s : SES_AddComponents) : Prop :=
  mIsUndoCmdActive s = false /\
  mCurrentSymbolEditCommand s = None /\
  mGenComp s = None /\
  mGenCompSymbVar s = None /\
  mCurrentSymbVarItem s = None /\
  mCurrentSymbolToPlace s = None.

Definition resetState (s : SES_AddComponents) : SES_AddComponents :=
  mkState false (mAddGenCompDialog s) (mLastAngle s) None None None None None.

(** The world in which [abortCommand], called in the state [s] and the world
    [w], calls [UndoStack::abortCommand]: the current edit command, if there
    is one, has been deleted. *)
Definition worldAtAbort {World QPointF Version FilePath : Type}
    (ext : Externals World QPointF Version FilePath)
    (s : SES_AddComponents) (w : World) : World :=
  match mCurrentSymbolEditCommand s with
  | Some c => cmdSymbolInstanceEdit_delete ext c w
  | None => w
  end.

(** The world in which the [catch] clauses of [entry] go on after the
    exception [e]: the message box has been shown, unless the user
    cancelled. *)
Definition worldAfterStartError {World QPointF Version FilePath : Type}
    (ext : Externals World QPointF Version FilePath)
    (e : Exception) (w : World) : World :=
  match e with
  | UserCanceled => w
  | _ => msgBox_couldNotAdd ext e w
  end.

(** While no undo command is active, nothing is being placed. *)
Definition nothingPlaced (s : SES_AddComponents) : Prop :=
  mIsUndoCmdActive s = false ->
  mCurrentSymbolEditCommand s = None /\
  mCurrentSymbVarItem s = None /\
  mCurrentSymbolToPlace s = None.

(** [post c s w Q E]: run from [s] and [w], the member function [c] ends in
    a state that satisfies [Q] with the returned value, or [E] when it
    throws; nothing is said about a run with undefined behaviour. *)
Definition post {World A : Type} (c : M World A) (s : SES_AddComponents) (w : World)
    (Q : A -> SES_AddComponents -> Prop) (E : SES_AddComponents -> Prop) : Prop :=
  match c s w with
  | Returns a s' _ => Q a s'
  | Throws _ s' _ => E s'
  | Undefined => True
  end.

(** The state while a symbol is being placed: an undo command is active and
    the component, its symbol variant, the current item, the symbol to place
    and its edit command are all set. *)
Definition isPlacing (s : SES_AddComponents) : Prop :=
  mIsUndoCmdActive s = true /\
  mGenComp s <> None /\
  mGenCompSymbVar s <> None /\
  mCurrentSymbVarItem s <> None /\
  mCurrentSymbolToPlace s <> None /\
  mCurrentSymbolEditCommand s <> None.


(** *** A stand-in for the surrounding application

    For concrete runs of the member functions: the world is the list of the
    calls made on the undo stack, the message boxes and the edit commands,
    newest first, and a [Scenario] fixes what the application answers. *)
Inductive Call : Type :=
| UndoStack_beginCommand (text : QString)
| UndoStack_appendToCommand (cmd : UndoCommandPtr)
| UndoStack_endCommand
| UndoStack_abortCommand
| QMessageBox_critical (e : Exception)
| QMessageBox_information
| Edit_setPosition (cmd : UndoCommandPtr) (pos : Point) (immediate : bool)
| Edit_setRotation (cmd : UndoCommandPtr) (angle : Angle) (immediate : bool)
| Edit_rotate (cmd : UndoCommandPtr) (angle : Angle) (center : Point) (immediate : bool)
| Edit_delete (cmd : UndoCommandPtr)
| Dialog_delete (dlg : DialogPtr)
| ToolAddComponent_setChecked (checked : bool).

Record Scenario : Type := mkScenario {
  activeSchematic : option SchematicPtr;
  dialogAccepted : bool;
  genCompInLibrary : option GenCompPtr;
  symbolVariant : option SymbVarPtr;
  firstItem : option SymbVarItemPtr;
  nextItem : option SymbVarItemPtr;
  undoAbortFails : bool
}.

Definition Calls : Type := list Call.

Definition logged {A : Type} (c : Call) (a : A) (w : Calls) : A * Calls := (a, c :: w).

Definition simulate (sc : Scenario) : Externals Calls unit unit unit := {|
  editor_getActiveSchematic := fun _ => activeSchematic sc;
  view_cursorScenePos := fun _ => mkPoint (mkLength 0) (mkLength 0);
  view_scenePosToPoint := fun _ _ => mkPoint (mkLength 2540000) (mkLength 5080000);
  ui_setToolAddComponentChecked := fun b w => ToolAddComponent_setChecked b :: w;
  msgBox_error := fun e w => QMessageBox_critical e :: w;
  msgBox_couldNotAdd := fun e w => QMessageBox_critical e :: w;
  msgBox_differentVersion := fun _ _ w => QMessageBox_information :: w;
  dialog_new := fun w => (7, w);
  dialog_exec := fun _ w => (dialogAccepted sc, w);
  dialog_getSelectedGenCompFilePath := fun _ _ => tt;
  dialog_getSelectedSymbVarUuid := fun _ _ => mkQUuid 2;
  dialog_delete := fun d w => Dialog_delete d :: w;
  genCompFile_read := fun _ w => (Ok (mkQUuid 1, tt), w);
  library_getGenComp := fun _ _ => genCompInLibrary sc;
  genComp_getUuid := fun _ _ => mkQUuid 1;
  genComp_getVersion := fun _ _ => tt;
  Version_eqb := fun _ _ => true;
  genComp_getSymbolVariantByUuid := fun _ _ _ => symbolVariant sc;
  symbVar_getUuid := fun _ _ => mkQUuid 2;
  symbVar_firstItem := fun _ _ => firstItem sc;
  symbVar_getNextItem := fun _ _ _ => nextItem sc;
  item_getUuid := fun _ _ => mkQUuid 3;
  undo_beginCommand := fun text => logged (UndoStack_beginCommand text) (Ok tt);
  undo_appendToCommand := fun cmd => logged (UndoStack_appendToCommand cmd) (Ok tt);
  undo_endCommand := logged UndoStack_endCommand (Ok tt);
  undo_abortCommand :=
    logged UndoStack_abortCommand (if undoAbortFails sc then Throw RuntimeError else Ok tt);
  cmdGenCompInstAdd_new := fun _ _ w => (Ok 10, w);
  cmdGenCompInstAdd_getGenCompInstance := fun _ _ => Some 11;
  cmdSymbolInstanceAdd_new := fun _ _ _ _ w => (Ok 12, w);
  cmdSymbolInstanceAdd_getSymbolInstance := fun _ _ => Some 13;
  cmdSymbolInstanceEdit_new := fun _ w => (14, w);
  cmdSymbolInstanceEdit_delete := fun cmd w => Edit_delete cmd :: w;
  cmdSymbolInstanceEdit_setPosition := fun cmd pos b w => Edit_setPosition cmd pos b :: w;
  cmdSymbolInstanceEdit_setRotation := fun cmd a b w => Edit_setRotation cmd a b :: w;
  cmdSymbolInstanceEdit_rotate := fun cmd a c b w => Edit_rotate cmd a c b :: w;
  symbol_getPosition := fun _ _ => mkPoint (mkLength 2540000) (mkLength 5080000);
  symbol_getGenCompInstance := fun _ _ => 11
|}.

(** A project whose library holds the component, its symbol variant and one
    symbol. *)
Definition plainScenario : Scenario :=
  mkScenario (Some 0) true (Some 1) (Some 2) (Some 3) None false.

(** The component of the library has no symbol. *)
Definition noSymbolScenario : Scenario :=
  mkScenario (Some 0) true (Some 1) (Some 2) None None false.

(** The component has no symbol, and the undo stack refuses to abort. *)
Definition refusingScenario : Scenario :=
  mkScenario (Some 0) true (Some 1) (Some 2) None None true.

(** The component of the library does not have the symbol variant asked
    for. *)
Definition noVariantScenario : Scenario :=
  mkScenario (Some 0) true (Some 1) None None None false.

(** No schematic is open in the editor. *)
Definition noSchematicScenario : Scenario :=
  mkScenario None true (Some 1) (Some 2) (Some 3) None false.

(** The event that starts adding the component 1 with its symbol variant 2. *)
Definition startEvent : SEE_Base unit :=
  SEE_StartAddComponent unit StartAddComponent (mkQUuid 1) (mkQUuid 2).



(** The state while the first symbol of a component is being placed. *)
Definition placingState : SES_AddComponents :=
  mkState true None (mkAngle 0) (Some 1) (Some 2) (Some 3) (Some 13) (Some 14).

(** The project's library does not hold the component. *)
Definition unknownComponentScenario : Scenario :=
  mkScenario (Some 0) true None (Some 2) (Some 3) None false.

(** The user rejects the component chooser dialog. *)
Definition rejectedDialogScenario : Scenario :=
  mkScenario (Some 0) false (Some 1) (Some 2) (Some 3) None false.

(** The component has a second symbol. *)
Definition twoSymbolsScenario : Scenario :=
  mkScenario (Some 0) true (Some 1) (Some 2) (Some 3) (Some 4) false.

(** The event that aborts the current command. *)
Definition abortEvent : SEE_Base unit := SEE_Plain unit AbortCommand.

(** A mouse move, a click of the left button and a click of the right
    button in the scene. *)
Definition moveEvent : SEE_Base unit :=
  SEE_RedirectedQEvent SchematicSceneEvent
    (Some (QGraphicsSceneMouseEvent GraphicsSceneMouseMove tt (OtherButton 0))).

Definition leftClickEvent : SEE_Base unit :=
  SEE_RedirectedQEvent SchematicSceneEvent
    (Some (QGraphicsSceneMouseEvent GraphicsSceneMousePress tt LeftButton)).

Definition rightClickEvent : SEE_Base unit :=
  SEE_RedirectedQEvent SchematicSceneEvent
    (Some (QGraphicsSceneMouseEvent GraphicsSceneMousePress tt RightButton)).


End Project.

(** * Properties of the footprint pad *)

Module FootprintPadSpec.
Import Common Library.

(** ** Equality of the value types *)

Lemma Length_eqb_eq (a b : Length) : Length_eqb a b = true <-> a = b.
Proof.
  destruct a as [x], b as [y]; unfold Length_eqb; simpl.
  rewrite Z.eqb_eq. split; [intros ->; reflexivity | congruence].
Qed.

Lemma Angle_eqb_eq (a b : Angle) : Angle_eqb a b = true <-> a = b.
Proof.
  destruct a as [x], b as [y]; unfold Angle_eqb; simpl.
  rewrite Z.eqb_eq. split; [intros ->; reflexivity | congruence].
Qed.

Lemma Uuid_eqb_eq (a b : Uuid) : Uuid_eqb a b = true <-> a = b.
Proof.
  destruct a as [x], b as [y]; unfold Uuid_eqb; simpl.
  rewrite String.eqb_eq. split; [intros ->; reflexivity | congruence].
Qed.

Lemma Point_eqb_eq (a b : Point) : Point_eqb a b = true <-> a = b.
Proof.
  destruct a as [ax ay], b as [bx by_]; unfold Point_eqb; simpl.
  rewrite andb_true_iff, !Length_eqb_eq.
  split; [intros [-> ->]; reflexivity | intros H; inversion H; auto].
Qed.

Lemma Shape_eqb_eq (a b : Shape) : Shape_eqb a b = true <-> a = b.
Proof. destruct a, b; simpl; split; congruence. Qed.

Lemma BoardSide_eqb_eq (a b : BoardSide) : BoardSide_eqb a b = true <-> a = b.
Proof. destruct a, b; simpl; split; congruence. Qed.

(** ** Enumerations and their names *)

Lemma stringToShape_shapeToString (shape : Shape) :
  stringToShape (shapeToString shape) = Ok shape.
Proof. destruct shape; reflexivity. Qed.

Lemma stringToBoardSide_boardSideToString (side : BoardSide) :
  stringToBoardSide (boardSideToString side) = Ok side.
Proof. destruct side; reflexivity. Qed.

Lemma stringToShape_other (s : QString) :
  s <> "round" -> s <> "rect" -> s <> "octagon" -> stringToShape s = Throw RuntimeError.
Proof.
  intros H1 H2 H3. unfold stringToShape.
  apply String.eqb_neq in H1, H2, H3. rewrite H1, H2, H3. reflexivity.
Qed.

Lemma stringToBoardSide_other (s : QString) :
  s <> "top" -> s <> "bottom" -> s <> "tht" -> stringToBoardSide s = Throw RuntimeError.
Proof.
  intros H1 H2 H3. unfold stringToBoardSide.
  apply String.eqb_neq in H1, H2, H3. rewrite H1, H2, H3. reflexivity.
Qed.

(** C3.  Converting a shape or a board side to its name and back gives the
    value again, and every string that is not one of the three names of the
    enumeration makes the conversion from a string throw a [RuntimeError]. *)
Theorem enum_names_roundtrip_and_reject :
  (forall shape : Shape, stringToShape (shapeToString shape) = Ok shape) /\
  (forall side : BoardSide, stringToBoardSide (boardSideToString side) = Ok side) /\
  (forall s : QString,
      s <> "round" -> s <> "rect" -> s <> "octagon" ->
      stringToShape s = Throw RuntimeError) /\
  (forall s : QString,
      s <> "top" -> s <> "bottom" -> s <> "tht" ->
      stringToBoardSide s = Throw RuntimeError).
Proof.
  split; [exact stringToShape_shapeToString |].
  split; [exact stringToBoardSide_boardSideToString |].
  split; [exact stringToShape_other | exact stringToBoardSide_other].
Qed.

(** ** The outline *)

(** Within the 64-bit range nothing wraps. *)
Lemma wrap64_inInt64 (z : Z) : inInt64 z -> wrap64 z = z.
Proof.
  unfold inInt64, int64_min, int64_max, wrap64. intros H.
  rewrite Z.mod_small; lia.
Qed.

Lemma wrap64_range (z : Z) : inInt64 (wrap64 z).
Proof.
  unfold inInt64, int64_min, int64_max, wrap64.
  pose proof (Z.mod_pos_bound (z + 9223372036854775808) 18446744073709551616).
  lia.
Qed.

(** The expanded dimension is the exact sum when neither the doubling nor
    the addition leaves the 64-bit range. *)
Lemma Length_expand_exact (l expansion : Length) :
  inInt64 (2 * toNm expansion) ->
  inInt64 (toNm l + 2 * toNm expansion) ->
  Length_add l (Length_mul expansion 2) = mkLength (toNm l + 2 * toNm expansion).
Proof.
  intros H2 Hs. unfold Length_add, Length_mul. cbn [toNm].
  replace (toNm expansion * 2)%Z with (2 * toNm expansion)%Z by lia.
  rewrite (wrap64_inInt64 H2), (wrap64_inInt64 Hs). reflexivity.
Qed.

(** C4 (amended).  Let [w = mWidth + expansion * 2] and
    [h = mHeight + expansion * 2] as [Length] computes them in its 64-bit
    integer.  When both are positive, the outline is the obround, the centred
    rectangle or the octagon of width [w] and height [h], by the pad's shape;
    in every other case it is the empty path.  [w] and [h] are the exact sums
    [mWidth + 2 * expansion] and [mHeight + 2 * expansion] whenever the
    doubled expansion and these sums lie within the 64-bit range. *)
Theorem getOutline_by_shape (tk : Toolkit) (p : FootprintPad) (expansion : Length) :
  let w := Length_add (mWidth p) (Length_mul expansion 2) in
  let h := Length_add (mHeight p) (Length_mul expansion 2) in
  ((0 < toNm w)%Z /\ (0 < toNm h)%Z ->
   getOutline tk p expansion =
   match mShape p with
   | ROUND => Path_obround tk w h
   | RECT => Path_centeredRect tk w h
   | OCTAGON => Path_octagon tk w h
   end) /\
  (~ ((0 < toNm w)%Z /\ (0 < toNm h)%Z) ->
   getOutline tk p expansion = Path_empty tk) /\
  (inInt64 (2 * toNm expansion) ->
   inInt64 (toNm (mWidth p) + 2 * toNm expansion) ->
   inInt64 (toNm (mHeight p) + 2 * toNm expansion) ->
   w = mkLength (toNm (mWidth p) + 2 * toNm expansion) /\
   h = mkLength (toNm (mHeight p) + 2 * toNm expansion)).
Proof.
  intros w h. unfold getOutline. fold w h. unfold Length_gtb.
  destruct (Z.ltb_spec 0 (toNm w)) as [Hw | Hw];
    destruct (Z.ltb_spec 0 (toNm h)) as [Hh | Hh]; cbn [andb];
    (split; [| split;
      [| intros H2 H3 H4; split; apply Length_expand_exact; assumption]]).
  - intros _; destruct (mShape p); reflexivity.
  - intros H; tauto.
  - intros [_ H]; lia.
  - reflexivity.
  - intros [H _]; lia.
  - reflexivity.
  - intros [H _]; lia.
  - reflexivity.
Qed.

(** ** Value semantics *)

Lemma operator_eq_true_iff (a b : FootprintPad) :
  operator_eq a b = true <->
  mPackagePadUuid a = mPackagePadUuid b /\
  mPosition a = mPosition b /\
  mRotation a = mRotation b /\
  mShape a = mShape b /\
  mWidth a = mWidth b /\
  mHeight a = mHeight b /\
  mDrillDiameter a = mDrillDiameter b /\
  mBoardSide a = mBoardSide b.
Proof.
  unfold operator_eq.
  rewrite <- Uuid_eqb_eq, <- Point_eqb_eq, <- Angle_eqb_eq, <- Shape_eqb_eq,
    <- !Length_eqb_eq, <- BoardSide_eqb_eq.
  destruct (Uuid_eqb _ _), (Point_eqb _ _), (Angle_eqb _ _), (Shape_eqb _ _),
    (Length_eqb (mWidth a) _), (Length_eqb (mHeight a) _),
    (Length_eqb (mDrillDiameter a) _), (BoardSide_eqb _ _);
    simpl; intuition congruence.
Qed.

Lemma operator_assign_fields (a b : FootprintPad) :
  operator_assign a b =
  mkFootprintPad (mPackagePadUuid b) (mPosition b) (mRotation b) (mShape b) (mWidth b)
    (mHeight b) (mDrillDiameter b) (mBoardSide b) (mRegisteredGraphicsItem a).
Proof. reflexivity. Qed.

(** C5.  After the copy assignment [a = b], and after the copy construction
    of [a] from [b] in any storage, [a == b] holds; and [==] holds exactly
    when the eight data attributes of the two pads are equal. *)
Theorem copy_then_equal :
  (forall a b : FootprintPad, operator_eq (operator_assign a b) b = true) /\
  (forall raw b : FootprintPad, operator_eq (FootprintPad_copy raw b) b = true) /\
  (forall a b : FootprintPad,
      operator_eq a b = true <->
      mPackagePadUuid a = mPackagePadUuid b /\
      mPosition a = mPosition b /\
      mRotation a = mRotation b /\
      mShape a = mShape b /\
      mWidth a = mWidth b /\
      mHeight a = mHeight b /\
      mDrillDiameter a = mDrillDiameter b /\
      mBoardSide a = mBoardSide b).
Proof.
  split; [| split].
  - intros a b. apply operator_eq_true_iff.
    rewrite operator_assign_fields. simpl. repeat split.
  - intros raw b. apply operator_eq_true_iff.
    unfold FootprintPad_copy. rewrite operator_assign_fields. simpl. repeat split.
  - exact operator_eq_true_iff.
Qed.

(** C9.  Each setter stores its argument in its own attribute and leaves
    the other seven data attributes, and the registered graphics item, as
    they were. *)
Theorem setters_write_one_attribute (tk : Toolkit) (p : FootprintPad) :
  (forall pos, fst (setPosition tk pos p) =
     mkFootprintPad (mPackagePadUuid p) pos (mRotation p) (mShape p) (mWidth p)
       (mHeight p) (mDrillDiameter p) (mBoardSide p) (mRegisteredGraphicsItem p)) /\
  (forall pad, fst (setPackagePadUuid tk pad p) =
     mkFootprintPad pad (mPosition p) (mRotation p) (mShape p) (mWidth p)
       (mHeight p) (mDrillDiameter p) (mBoardSide p) (mRegisteredGraphicsItem p)) /\
  (forall rot, fst (setRotation tk rot p) =
     mkFootprintPad (mPackagePadUuid p) (mPosition p) rot (mShape p) (mWidth p)
       (mHeight p) (mDrillDiameter p) (mBoardSide p) (mRegisteredGraphicsItem p)) /\
  (forall shape, fst (setShape tk shape p) =
     mkFootprintPad (mPackagePadUuid p) (mPosition p) (mRotation p) shape (mWidth p)
       (mHeight p) (mDrillDiameter p) (mBoardSide p) (mRegisteredGraphicsItem p)) /\
  (forall width, fst (setWidth tk width p) =
     mkFootprintPad (mPackagePadUuid p) (mPosition p) (mRotation p) (mShape p) width
       (mHeight p) (mDrillDiameter p) (mBoardSide p) (mRegisteredGraphicsItem p)) /\
  (forall height, fst (setHeight tk height p) =
     mkFootprintPad (mPackagePadUuid p) (mPosition p) (mRotation p) (mShape p) (mWidth p)
       height (mDrillDiameter p) (mBoardSide p) (mRegisteredGraphicsItem p)) /\
  (forall diameter, fst (setDrillDiameter tk diameter p) =
     mkFootprintPad (mPackagePadUuid p) (mPosition p) (mRotation p) (mShape p) (mWidth p)
       (mHeight p) diameter (mBoardSide p) (mRegisteredGraphicsItem p)) /\
  (forall side, fst (setBoardSide tk side p) =
     mkFootprintPad (mPackagePadUuid p) (mPosition p) (mRotation p) (mShape p) (mWidth p)
       (mHeight p) (mDrillDiameter p) side (mRegisteredGraphicsItem p)).
Proof.
  destruct p as [uuid pos rot shape width height drill side item].
  repeat split; intros v; reflexivity.
Qed.

(** ** Validity and serialization *)

Lemma checkAttributesValidity_false_iff (p : FootprintPad) :
  checkAttributesValidity p = false <->
  Uuid_isNull (mPackagePadUuid p) = true \/
  (toNm (mWidth p) <= 0)%Z \/
  (toNm (mHeight p) <= 0)%Z \/
  (toNm (mDrillDiameter p) < 0)%Z.
Proof.
  unfold checkAttributesValidity, Length_leb, Length_ltb.
  destruct (Uuid_isNull (mPackagePadUuid p)); [intuition |].
  destruct (Z.leb_spec (toNm (mWidth p)) 0); [intuition |].
  destruct (Z.leb_spec (toNm (mHeight p)) 0); [intuition |].
  destruct (Z.ltb_spec (toNm (mDrillDiameter p)) 0); [intuition |].
  split; [discriminate | intros [H2 | [H2 | [H2 | H2]]]; try discriminate; lia].
Qed.

Lemma checkAttributesValidity_true_iff (p : FootprintPad) :
  checkAttributesValidity p = true <->
  Uuid_isNull (mPackagePadUuid p) = false /\
  (0 < toNm (mWidth p))%Z /\
  (0 < toNm (mHeight p))%Z /\
  (0 <= toNm (mDrillDiameter p))%Z.
Proof.
  pose proof (checkAttributesValidity_false_iff p) as H.
  destruct (checkAttributesValidity p), (Uuid_isNull (mPackagePadUuid p)).
  - split; [intros _ | reflexivity].
    exfalso. assert (true = false) by (apply H; auto). discriminate.
  - split; [intros _ | reflexivity].
    repeat split; try reflexivity;
      match goal with
      | |- (?a < ?b)%Z => destruct (Z.lt_ge_cases a b) as [L | L]; [exact L |]
      | |- (?a <= ?b)%Z => destruct (Z.le_gt_cases a b) as [L | L]; [exact L |]
      end;
      exfalso; assert (true = false) by (apply H; auto; right; lia); discriminate.
  - split; [discriminate | intros [E _]; discriminate].
  - split; [discriminate |].
    intros (_ & Hw & Hh & Hd).
    assert (Hf : false = false) by reflexivity.
    apply H in Hf. destruct Hf as [F | [F | [F | F]]]; [discriminate | lia | lia | lia].
Qed.

Section SerializationFacts.

Context {Uuid_codec : StringCodec Uuid}.
Context {Length_codec : StringCodec Length}.
Context {Angle_codec : StringCodec Angle}.

Lemma serialize_valid (p : FootprintPad) (name : QString) (children : list SExpression) :
  checkAttributesValidity p = true ->
  serialize p (SList name children) = (Ok tt, SList name (children ++ serialized p)).
Proof.
  intros Hv. unfold serialize. rewrite Hv. cbn.
  repeat rewrite <- app_assoc. reflexivity.
Qed.

Lemma serialize_invalid (p : FootprintPad) (root : SExpression) :
  checkAttributesValidity p = false ->
  serialize p root = (Throw LogicError, root).
Proof.
  intros Hv. unfold serialize. rewrite Hv. reflexivity.
Qed.

(** Reading never fails with a [LogicError]: a missing child or an
    unreadable value is a [FileParseError], an unknown name of an enumerator
    a [RuntimeError]. *)

Lemma noLogicError_bind {A B : Type} (c : Result A) (k : A -> Result B) :
  noLogicError c -> (forall a, noLogicError (k a)) -> noLogicError (Result_bind c k).
Proof.
  intros Hc Hk. destruct c as [a | e]; simpl; [apply Hk |].
  intros E. apply Hc. inversion E. reflexivity.
Qed.

Lemma noLogicError_Ok {A : Type} (a : A) : noLogicError (Ok a).
Proof. discriminate. Qed.

Lemma noLogicError_getChildByIndex (i : nat) (e : SExpression) :
  noLogicError (getChildByIndex i e).
Proof. unfold getChildByIndex. destruct (nth_error _ _); discriminate. Qed.

Lemma noLogicError_getChildByPath (path : QString) (e : SExpression) :
  noLogicError (getChildByPath path e).
Proof. unfold getChildByPath. destruct (find _ _); discriminate. Qed.

Lemma noLogicError_getValue {T : Type} {c : StringCodec T} (b : bool) (e : SExpression) :
  noLogicError (getValue (T:=T) b e).
Proof.
  unfold getValue, getStringOrToken.
  destruct e as [n cs | v | v |]; try discriminate;
    (destruct (b && QString_isEmpty v); simpl; [discriminate |];
     destruct (QString_isEmpty v); [discriminate |];
     destruct (stringToObject v); discriminate).
Qed.

Lemma noLogicError_getValueByPath {T : Type} {c : StringCodec T}
    (path : QString) (b : bool) (e : SExpression) :
  noLogicError (getValueByPath (T:=T) path b e).
Proof.
  unfold getValueByPath.
  apply noLogicError_bind; [apply noLogicError_getChildByPath | intros l].
  apply noLogicError_bind; [apply noLogicError_getChildByIndex | intros v].
  apply noLogicError_getValue.
Qed.

Lemma noLogicError_Point (e : SExpression) : noLogicError (Point_fromSExpression e).
Proof.
  unfold Point_fromSExpression.
  repeat (apply noLogicError_bind;
          [first [apply noLogicError_getChildByIndex | apply noLogicError_getValue] | intros ?]).
  apply noLogicError_Ok.
Qed.

Lemma noLogicError_stringToShape (s : QString) : noLogicError (stringToShape s).
Proof.
  unfold stringToShape.
  repeat match goal with |- context [if ?b then _ else _] => destruct b end; discriminate.
Qed.

Lemma noLogicError_stringToBoardSide (s : QString) : noLogicError (stringToBoardSide s).
Proof.
  unfold stringToBoardSide.
  repeat match goal with |- context [if ?b then _ else _] => destruct b end; discriminate.
Qed.

Lemma noLogicError_readAttributes (node : SExpression) : noLogicError (readAttributes node).
Proof.
  unfold readAttributes.
  repeat (apply noLogicError_bind;
          [first [ apply noLogicError_getChildByIndex
                 | apply noLogicError_getChildByPath
                 | apply noLogicError_getValue
                 | apply noLogicError_getValueByPath
                 | apply noLogicError_Point
                 | apply noLogicError_stringToShape
                 | apply noLogicError_stringToBoardSide ]
          | intros ? ]).
  apply noLogicError_Ok.
Qed.

Lemma fromSExpression_LogicError_iff (node : SExpression) :
  FootprintPad_fromSExpression node = Throw LogicError <->
  exists q, readAttributes node = Ok q /\ checkAttributesValidity q = false.
Proof.
  unfold FootprintPad_fromSExpression.
  pose proof (noLogicError_readAttributes node) as Hn.
  destruct (readAttributes node) as [q | e]; simpl.
  - destruct (checkAttributesValidity q) eqn:Hq; simpl.
    + split; [discriminate | intros (q' & E & Hq'); congruence].
    + split; [intros _; exists q; auto | reflexivity].
  - split.
    + intros E. exfalso. apply Hn. exact E.
    + intros (q & E & _). discriminate.
Qed.

(** C2.  The attributes of a pad are invalid exactly when the package pad
    identifier is null, the width or the height is not positive, or the
    drill diameter is negative.  [serialize], on a list node, throws a
    [LogicError] exactly for an invalid pad, and then the node is as it was;
    the constructor from an S-expression throws a [LogicError] exactly when
    the attributes it has read are invalid. *)
Theorem LogicError_iff_invalid_attributes (p : FootprintPad) :
  (checkAttributesValidity p = false <->
   Uuid_isNull (mPackagePadUuid p) = true \/
   (toNm (mWidth p) <= 0)%Z \/
   (toNm (mHeight p) <= 0)%Z \/
   (toNm (mDrillDiameter p) < 0)%Z) /\
  (forall (name : QString) (children : list SExpression),
      fst (serialize p (SList name children)) = Throw LogicError <->
      checkAttributesValidity p = false) /\
  (forall root : SExpression,
      checkAttributesValidity p = false ->
      serialize p root = (Throw LogicError, root)) /\
  (forall node : SExpression,
      FootprintPad_fromSExpression node = Throw LogicError <->
      exists q, readAttributes node = Ok q /\ checkAttributesValidity q = false).
Proof.
  split; [apply checkAttributesValidity_false_iff |].
  split; [| split].
  - intros name children.
    destruct (checkAttributesValidity p) eqn:Hv.
    + rewrite (serialize_valid _ name children Hv). simpl. split; discriminate.
    + rewrite (serialize_invalid _ _ Hv). simpl. split; reflexivity.
  - intros root Hv. apply serialize_invalid. exact Hv.
  - exact fromSExpression_LogicError_iff.
Qed.

(** *** Round trip *)

Lemma getValue_serialized {T : Type} (c : StringCodec T) (dom : T -> Prop) (x : T) :
  CodecRoundTrip c dom -> dom x ->
  getValue true (SToken (serializeToString x)) = Ok x.
Proof.
  intros Hc Hx. destruct (Hc x Hx) as [Hne Hback].
  unfold getValue, getStringOrToken. rewrite Hne. simpl.
  rewrite Hne, Hback. reflexivity.
Qed.

Lemma getValue_boardSideToString (side : BoardSide) :
  getValue (T:=QString) true (SToken (boardSideToString side)) = Ok (boardSideToString side).
Proof. destruct side; reflexivity. Qed.

Lemma getValue_shapeToString (shape : Shape) :
  getValue (T:=QString) true (SToken (shapeToString shape)) = Ok (shapeToString shape).
Proof. destruct shape; reflexivity. Qed.

Hypothesis Uuid_roundtrip : CodecRoundTrip Uuid_codec (fun u => Uuid_isNull u = false).
Hypothesis Length_roundtrip : CodecRoundTrip Length_codec (fun _ => True).
Hypothesis Angle_roundtrip : CodecRoundTrip Angle_codec (fun _ => True).

Lemma Point_fromSExpression_serialized (name : QString) (x y : Length) :
  Point_fromSExpression
    (SList name [SToken (serializeToString x); SToken (serializeToString y)]) =
  Ok (mkPoint x y).
Proof.
  unfold Point_fromSExpression. cbn [getChildByIndex getChildren nth_error Result_bind].
  rewrite (getValue_serialized x Length_roundtrip I). cbn [Result_bind].
  rewrite (getValue_serialized y Length_roundtrip I). reflexivity.
Qed.

Lemma readAttributes_serialized (p : FootprintPad) (name : QString) :
  Uuid_isNull (mPackagePadUuid p) = false ->
  readAttributes (SList name (serialized p)) =
  Ok (mkFootprintPad (mPackagePadUuid p) (mPosition p) (mRotation p) (mShape p) (mWidth p)
        (mHeight p) (mDrillDiameter p) (mBoardSide p) None).
Proof.
  intros Hu. destruct p as [uuid [px py] rot shape width height drill side item].
  unfold readAttributes, serialized, getValueByPath.
  cbn [mPackagePadUuid mPosition mRotation mShape mWidth mHeight mDrillDiameter mBoardSide
       getX getY].
  cbn [getChildByIndex getChildByPath getChildren nth_error find isListNamed Result_bind
       String.eqb Ascii.eqb Bool.eqb andb].
  rewrite (getValue_serialized uuid Uuid_roundtrip Hu). cbn [Result_bind].
  rewrite Point_fromSExpression_serialized. cbn [Result_bind].
  rewrite (getValue_serialized rot Angle_roundtrip I). cbn [Result_bind].
  rewrite getValue_boardSideToString. cbn [Result_bind].
  rewrite stringToBoardSide_boardSideToString. cbn [Result_bind].
  rewrite getValue_shapeToString. cbn [Result_bind].
  rewrite stringToShape_shapeToString. cbn [Result_bind].
  rewrite (getValue_serialized drill Length_roundtrip I). cbn [Result_bind].
  rewrite Point_fromSExpression_serialized. cbn [Result_bind getX getY].
  reflexivity.
Qed.

(** C1.  A pad with valid attributes (the package pad identifier is not
    null, width and height are positive, the drill diameter is not negative)
    is serialized into a fresh list node without an exception, and the
    constructor builds from that node a pad that is [==] to the original. *)
Theorem serialize_then_construct (p : FootprintPad) (name : QString) :
  Uuid_isNull (mPackagePadUuid p) = false ->
  (0 < toNm (mWidth p))%Z ->
  (0 < toNm (mHeight p))%Z ->
  (0 <= toNm (mDrillDiameter p))%Z ->
  exists (node : SExpression) (q : FootprintPad),
    serialize p (createList name) = (Ok tt, node) /\
    FootprintPad_fromSExpression node = Ok q /\
    operator_eq q p = true.
Proof.
  intros Hu Hw Hh Hd.
  assert (Hv : checkAttributesValidity p = true)
    by (apply checkAttributesValidity_true_iff; auto).
  exists (SList name (serialized p)).
  exists (mkFootprintPad (mPackagePadUuid p) (mPosition p) (mRotation p) (mShape p)
            (mWidth p) (mHeight p) (mDrillDiameter p) (mBoardSide p) None).
  split; [| split].
  - unfold createList. rewrite (serialize_valid p name [] Hv). reflexivity.
  - unfold FootprintPad_fromSExpression.
    rewrite (readAttributes_serialized p name Hu). cbn [Result_bind].
    match goal with
    | |- context [checkAttributesValidity ?q] =>
        assert (Hq : checkAttributesValidity q = true)
          by (apply checkAttributesValidity_true_iff; simpl; auto)
    end.
    rewrite Hq. reflexivity.
  - apply operator_eq_true_iff. simpl. repeat split.
Qed.

(** *** Further properties of serialization *)

(** X11.  Pads that are [==] are serialized alike: on every node
    [serialize] has the same outcome and leaves the same node for both, so
    the registered graphics item never shows in a file. *)
Theorem equal_pads_serialize_alike (p q : FootprintPad) (root : SExpression) :
  operator_eq p q = true -> serialize p root = serialize q root.
Proof.
  intros H. apply operator_eq_true_iff in H.
  destruct p as [u1 pos1 rot1 sh1 w1 h1 d1 side1 item1].
  destruct q as [u2 pos2 rot2 sh2 w2 h2 d2 side2 item2].
  simpl in H. destruct H as (-> & -> & -> & -> & -> & -> & -> & ->).
  reflexivity.
Qed.

Lemma readAttributes_no_item (node : SExpression) (q : FootprintPad) :
  readAttributes node = Ok q -> mRegisteredGraphicsItem q = None.
Proof.
  unfold readAttributes. intros H.
  repeat match type of H with
         | Result_bind ?c _ = Ok _ =>
             destruct c eqn:?; cbn [Result_bind] in H; [| discriminate H]
         end.
  inversion H. reflexivity.
Qed.

(** X12.  Whatever node the constructor accepts, the pad it builds has
    valid attributes and no registered graphics item, so the pad can be
    serialized again: [serialize] then succeeds on every list node and
    appends the pad's eight children behind those the node already has. *)
Theorem constructed_pad_is_valid (node : SExpression) (q : FootprintPad) :
  FootprintPad_fromSExpression node = Ok q ->
  checkAttributesValidity q = true /\
  mRegisteredGraphicsItem q = None /\
  (forall (name : QString) (children : list SExpression),
      serialize q (SList name children) = (Ok tt, SList name (children ++ serialized q))).
Proof.
  unfold FootprintPad_fromSExpression. intros H.
  destruct (readAttributes node) as [p | e] eqn:Hr; cbn [Result_bind] in H;
    [| discriminate H].
  destruct (checkAttributesValidity p) eqn:Hv; cbn [negb] in H; [| discriminate H].
  inversion H; subst q.
  split; [exact Hv |]. split; [exact (readAttributes_no_item _ Hr) |].
  intros name children. apply serialize_valid. exact Hv.
Qed.

(** X13.  Serialization loses nothing that [operator==] sees: if a valid
    pad and another pad are serialized into equal nodes, the two pads are
    [==]. *)
Theorem serialize_injective (p q : FootprintPad) (name : QString) :
  checkAttributesValidity p = true ->
  serialize p (createList name) = serialize q (createList name) ->
  operator_eq p q = true.
Proof.
  intros Hp Heq.
  assert (Hq : checkAttributesValidity q = true).
  { destruct (checkAttributesValidity q) eqn:Hq; [reflexivity |].
    unfold createList in Heq.
    rewrite (serialize_valid p name [] Hp), (serialize_invalid q _ Hq) in Heq.
    discriminate Heq. }
  unfold createList in Heq.
  rewrite (serialize_valid p name [] Hp), (serialize_valid q name [] Hq) in Heq.
  cbn [app] in Heq.
  assert (Hnode : SList name (serialized p) = SList name (serialized q)) by congruence.
  pose proof (proj1 (checkAttributesValidity_true_iff p) Hp) as (Hup & _).
  pose proof (proj1 (checkAttributesValidity_true_iff q) Hq) as (Huq & _).
  pose proof (readAttributes_serialized p name Hup) as Rp.
  pose proof (readAttributes_serialized q name Huq) as Rq.
  rewrite Hnode in Rp. rewrite Rp in Rq. inversion Rq.
  apply operator_eq_true_iff. repeat split; assumption.
Qed.


End SerializationFacts.

(** *** The round trip on a concrete pad, with decimal token texts *)

Lemma Z_toString_roundtrip (z : Z) :
  QString_isEmpty (Z_toString z) = false /\ Z_fromString (Z_toString z) = Some z.
Proof.
  assert (Hback : NilZero.int_of_string (Z_toString z) = Some (Z.to_int z)).
  { unfold Z_toString. apply NilZero.isi.
    - destruct z; simpl; [discriminate | |discriminate].
      intros E. injection E as E. exact (DecimalPos.Unsigned.to_uint_nonnil _ E).
    - destruct z; simpl; [discriminate | discriminate |].
      intros E. injection E as E. exact (DecimalPos.Unsigned.to_uint_nonnil _ E). }
  split.
  - destruct (Z_toString z); [discriminate Hback | reflexivity].
  - unfold Z_fromString. rewrite Hback. simpl. f_equal. apply DecimalZ.of_to.
Qed.

Lemma decimalLength_roundtrip : CodecRoundTrip decimalLength (fun _ => True).
Proof.
  intros [z] _. simpl. destruct (Z_toString_roundtrip z) as [Hne Hback].
  split; [exact Hne | rewrite Hback; reflexivity].
Qed.

Lemma decimalAngle_roundtrip : CodecRoundTrip decimalAngle (fun _ => True).
Proof.
  intros [z] _. simpl. destruct (Z_toString_roundtrip z) as [Hne Hback].
  split; [exact Hne | rewrite Hback; reflexivity].
Qed.

Lemma plainUuid_roundtrip : CodecRoundTrip plainUuid (fun u => Uuid_isNull u = false).
Proof.
  intros [s] Hs. simpl. split; [exact Hs | reflexivity].
Qed.

Lemma serialize_then_construct_example :
  (Uuid_isNull (mPackagePadUuid examplePad) = false /\
   (0 < toNm (mWidth examplePad))%Z /\
   (0 < toNm (mHeight examplePad))%Z /\
   (0 <= toNm (mDrillDiameter examplePad))%Z) /\
  exists (node : SExpression) (q : FootprintPad),
    serialize (Uuid_codec:=plainUuid) (Length_codec:=decimalLength)
      (Angle_codec:=decimalAngle) examplePad (createList "pad") = (Ok tt, node) /\
    FootprintPad_fromSExpression (Uuid_codec:=plainUuid) (Length_codec:=decimalLength)
      (Angle_codec:=decimalAngle) node = Ok q /\
    operator_eq q examplePad = true.
Proof.
  assert (Hu : Uuid_isNull (mPackagePadUuid examplePad) = false) by reflexivity.
  assert (Hw : (0 < toNm (mWidth examplePad))%Z) by (simpl; lia).
  assert (Hh : (0 < toNm (mHeight examplePad))%Z) by (simpl; lia).
  assert (Hd : (0 <= toNm (mDrillDiameter examplePad))%Z) by (simpl; lia).
  split; [auto |].
  exact (serialize_then_construct plainUuid_roundtrip decimalLength_roundtrip
           decimalAngle_roundtrip examplePad "pad" Hu Hw Hh Hd).
Defined.

(** C2 on a concrete pad: the example pad with a width of zero is not
    serialized, and the node stays as it was. *)
Lemma serialize_invalid_example :
  serialize (Uuid_codec:=plainUuid) (Length_codec:=decimalLength)
    (Angle_codec:=decimalAngle)
    (fst (setWidth symbolicToolkit (mkLength 0) examplePad)) (createList "pad") =
  (Throw LogicError, createList "pad").
Proof.
  apply (proj1 (proj2 (proj2 (LogicError_iff_invalid_attributes
                                (Uuid_codec:=plainUuid) (Length_codec:=decimalLength)
                                (Angle_codec:=decimalAngle)
                                (fst (setWidth symbolicToolkit (mkLength 0) examplePad)))))).
  reflexivity.
Defined.

(** C3 on a concrete string that names no shape. *)
Lemma stringToShape_oval_example : stringToShape "oval" = Throw RuntimeError.
Proof.
  apply (proj1 (proj2 (proj2 enum_names_roundtrip_and_reject))); discriminate.
Defined.

(** C4, as first stated, fails where the 64-bit integer overflows: the
    example pad is 1.5 mm by 2.5 mm, and with an expansion of [2^62] nm both
    [mWidth + 2 * expansion] and [mHeight + 2 * expansion] are positive
    numbers, yet the doubled expansion wraps to [-2^63], the computed
    dimensions are negative and the outline is the empty path, not the
    octagon. *)
Lemma getOutline_overflow_is_empty :
  (0 < toNm (mWidth examplePad) + 2 * 4611686018427387904)%Z /\
  (0 < toNm (mHeight examplePad) + 2 * 4611686018427387904)%Z /\
  mShape examplePad = OCTAGON /\
  getOutline symbolicToolkit examplePad (mkLength 4611686018427387904) = NoPath /\
  getOutline symbolicToolkit examplePad (mkLength 4611686018427387904) <>
  Octagon (mkLength (toNm (mWidth examplePad) + 2 * 4611686018427387904))
          (mkLength (toNm (mHeight examplePad) + 2 * 4611686018427387904)).
Proof.
  split; [reflexivity |]. split; [reflexivity |]. split; [reflexivity |].
  split; [vm_compute; reflexivity | vm_compute; discriminate].
Qed.

(** C4 on the example pad: grown by 0.1 mm it is an octagon of 1.7 mm by
    2.7 mm; shrunk by 0.75 mm it has no outline; and the sums are exact. *)
Lemma getOutline_example :
  getOutline symbolicToolkit examplePad (mkLength 100000) =
  Octagon (mkLength 1700000) (mkLength 2700000) /\
  getOutline symbolicToolkit examplePad (mkLength (-750000)) = NoPath /\
  Length_add (mWidth examplePad) (Length_mul (mkLength 100000) 2) = mkLength 1700000 /\
  Length_add (mHeight examplePad) (Length_mul (mkLength 100000) 2) = mkLength 2700000.
Proof.
  split; [| split].
  - apply (proj1 (getOutline_by_shape symbolicToolkit examplePad (mkLength 100000))).
    split; reflexivity.
  - apply (proj1 (proj2 (getOutline_by_shape symbolicToolkit examplePad
                           (mkLength (-750000))))).
    intros [H _]. discriminate H.
  - apply (proj2 (proj2 (getOutline_by_shape symbolicToolkit examplePad
                           (mkLength 100000))));
      unfold inInt64, int64_min, int64_max; simpl; lia.
Defined.

(** ** Further properties of the value class *)

(** X2.  [operator==] is an equivalence relation on pads, and it does not
    see the registered graphics item: registering or unregistering an item
    leaves a pad equal to itself. *)
Theorem operator_eq_equivalence :
  (forall a : FootprintPad, operator_eq a a = true) /\
  (forall a b : FootprintPad, operator_eq a b = operator_eq b a) /\
  (forall a b c : FootprintPad,
      operator_eq a b = true -> operator_eq b c = true -> operator_eq a c = true) /\
  (forall (item : GraphicsItemPtr) (a : FootprintPad),
      operator_eq (registerGraphicsItem item a) a = true /\
      operator_eq (unregisterGraphicsItem item a) a = true).
Proof.
  split; [| split; [| split]].
  - intros a. apply operator_eq_true_iff. repeat split.
  - intros a b.
    destruct (operator_eq a b) eqn:Hab, (operator_eq b a) eqn:Hba; try reflexivity.
    + apply operator_eq_true_iff in Hab.
      assert (Hba' : operator_eq b a = true)
        by (apply operator_eq_true_iff; intuition congruence).
      congruence.
    + apply operator_eq_true_iff in Hba.
      assert (Hab' : operator_eq a b = true)
        by (apply operator_eq_true_iff; intuition congruence).
      congruence.
  - intros a b c Hab Hbc.
    apply operator_eq_true_iff in Hab. apply operator_eq_true_iff in Hbc.
    apply operator_eq_true_iff. intuition congruence.
  - intros item a. split; apply operator_eq_true_iff; simpl; repeat split.
Qed.

Lemma stringToShape_Ok_iff (s : QString) (shape : Shape) :
  stringToShape s = Ok shape <-> s = shapeToString shape.
Proof.
  split.
  - unfold stringToShape.
    destruct (String.eqb_spec s "round") as [-> | _];
      [intros E; inversion E; reflexivity |].
    destruct (String.eqb_spec s "rect") as [-> | _];
      [intros E; inversion E; reflexivity |].
    destruct (String.eqb_spec s "octagon") as [-> | _];
      [intros E; inversion E; reflexivity | discriminate].
  - intros ->. apply stringToShape_shapeToString.
Qed.

Lemma stringToBoardSide_Ok_iff (s : QString) (side : BoardSide) :
  stringToBoardSide s = Ok side <-> s = boardSideToString side.
Proof.
  split.
  - unfold stringToBoardSide.
    destruct (String.eqb_spec s "top") as [-> | _];
      [intros E; inversion E; reflexivity |].
    destruct (String.eqb_spec s "bottom") as [-> | _];
      [intros E; inversion E; reflexivity |].
    destruct (String.eqb_spec s "tht") as [-> | _];
      [intros E; inversion E; reflexivity | discriminate].
  - intros ->. apply stringToBoardSide_boardSideToString.
Qed.

(** X3.  A string is read as a shape (a board side) exactly when it is the
    name that [shapeToString] ([boardSideToString]) gives that value: the
    names are matched letter by letter, so two values never share a name
    and no other spelling is accepted; and no name of a shape is the name
    of a board side. *)
Theorem enum_names_are_the_only_spellings :
  (forall (s : QString) (shape : Shape),
      stringToShape s = Ok shape <-> s = shapeToString shape) /\
  (forall (s : QString) (side : BoardSide),
      stringToBoardSide s = Ok side <-> s = boardSideToString side) /\
  (forall a b : Shape, shapeToString a = shapeToString b -> a = b) /\
  (forall a b : BoardSide, boardSideToString a = boardSideToString b -> a = b) /\
  (forall (shape : Shape) (side : BoardSide),
      stringToBoardSide (shapeToString shape) = Throw RuntimeError /\
      stringToShape (boardSideToString side) = Throw RuntimeError).
Proof.
  split; [exact stringToShape_Ok_iff |].
  split; [exact stringToBoardSide_Ok_iff |].
  split; [| split].
  - intros a b H. destruct a, b; simpl in H; try reflexivity; discriminate H.
  - intros a b H. destruct a, b; simpl in H; try reflexivity; discriminate H.
  - intros shape side. destruct shape, side; split; reflexivity.
Qed.

Lemma Length_add_zero (l : Length) :
  inInt64 (toNm l) -> Length_add l (Length_mul (mkLength 0) 2) = l.
Proof.
  intros H. destruct l as [z]. cbn [toNm] in H.
  rewrite Length_expand_exact; cbn [toNm].
  - f_equal. lia.
  - unfold inInt64, int64_min, int64_max. lia.
  - replace (z + 2 * 0)%Z with z by lia. exact H.
Qed.

(** X4.  A pad with valid attributes has an outline: without expansion
    [getOutline] is the path of the pad's shape with the pad's own width and
    height, never the fall-back empty path; and with an expansion that is
    not negative it is the path of that shape with the exact sums
    [mWidth + 2 * expansion] and [mHeight + 2 * expansion], as long as these
    do not exceed the largest 64-bit length. *)
Theorem valid_pad_has_outline (tk : Toolkit) (p : FootprintPad) (expansion : Length) :
  checkAttributesValidity p = true ->
  (0 <= toNm expansion)%Z ->
  (toNm (mWidth p) + 2 * toNm expansion <= int64_max)%Z ->
  (toNm (mHeight p) + 2 * toNm expansion <= int64_max)%Z ->
  getOutline tk p (mkLength 0) =
  match mShape p with
  | ROUND => Path_obround tk (mWidth p) (mHeight p)
  | RECT => Path_centeredRect tk (mWidth p) (mHeight p)
  | OCTAGON => Path_octagon tk (mWidth p) (mHeight p)
  end /\
  getOutline tk p expansion =
  match mShape p with
  | ROUND =>
      Path_obround tk (mkLength (toNm (mWidth p) + 2 * toNm expansion))
        (mkLength (toNm (mHeight p) + 2 * toNm expansion))
  | RECT =>
      Path_centeredRect tk (mkLength (toNm (mWidth p) + 2 * toNm expansion))
        (mkLength (toNm (mHeight p) + 2 * toNm expansion))
  | OCTAGON =>
      Path_octagon tk (mkLength (toNm (mWidth p) + 2 * toNm expansion))
        (mkLength (toNm (mHeight p) + 2 * toNm expansion))
  end.
Proof.
  intros Hv He Hwmax Hhmax.
  apply checkAttributesValidity_true_iff in Hv. destruct Hv as (_ & Hw & Hh & _).
  assert (Rw : inInt64 (toNm (mWidth p)))
    by (unfold inInt64, int64_min, int64_max in *; lia).
  assert (Rh : inInt64 (toNm (mHeight p)))
    by (unfold inInt64, int64_min, int64_max in *; lia).
  assert (R2 : inInt64 (2 * toNm expansion))
    by (unfold inInt64, int64_min, int64_max in *; lia).
  assert (Rwe : inInt64 (toNm (mWidth p) + 2 * toNm expansion))
    by (unfold inInt64, int64_min, int64_max in *; lia).
  assert (Rhe : inInt64 (toNm (mHeight p) + 2 * toNm expansion))
    by (unfold inInt64, int64_min, int64_max in *; lia).
  split.
  - unfold getOutline. rewrite !Length_add_zero by assumption. unfold Length_gtb.
    destruct (Z.ltb_spec 0 (toNm (mWidth p))); [| lia].
    destruct (Z.ltb_spec 0 (toNm (mHeight p))); [| lia].
    reflexivity.
  - unfold getOutline.
    rewrite (@Length_expand_exact (mWidth p) expansion R2 Rwe).
    rewrite (@Length_expand_exact (mHeight p) expansion R2 Rhe).
    unfold Length_gtb. cbn [toNm].
    destruct (Z.ltb_spec 0 (toNm (mWidth p) + 2 * toNm expansion)); [| lia].
    destruct (Z.ltb_spec 0 (toNm (mHeight p) + 2 * toNm expansion)); [| lia].
    reflexivity.
Qed.

(** X4 on the example pad: its own outline, and the one grown by 0.1 mm. *)
Lemma valid_pad_has_outline_example :
  getOutline symbolicToolkit examplePad (mkLength 0) =
  Octagon (mkLength 1500000) (mkLength 2500000) /\
  getOutline symbolicToolkit examplePad (mkLength 100000) =
  Octagon (mkLength 1700000) (mkLength 2700000).
Proof.
  apply (valid_pad_has_outline symbolicToolkit examplePad (mkLength 100000)).
  - reflexivity.
  - simpl. lia.
  - unfold int64_max. simpl. lia.
  - unfold int64_max. simpl. lia.
Defined.

(** X5.  A setter leaves the pad [==] to what it was exactly when it is
    handed the value the attribute already has. *)
Theorem setter_keeps_equality_iff_same_value (tk : Toolkit) (p : FootprintPad) :
  (forall pos, operator_eq (fst (setPosition tk pos p)) p = true <-> pos = mPosition p) /\
  (forall pad,
      operator_eq (fst (setPackagePadUuid tk pad p)) p = true <-> pad = mPackagePadUuid p) /\
  (forall rot, operator_eq (fst (setRotation tk rot p)) p = true <-> rot = mRotation p) /\
  (forall shape, operator_eq (fst (setShape tk shape p)) p = true <-> shape = mShape p) /\
  (forall width, operator_eq (fst (setWidth tk width p)) p = true <-> width = mWidth p) /\
  (forall height, operator_eq (fst (setHeight tk height p)) p = true <-> height = mHeight p) /\
  (forall diameter,
      operator_eq (fst (setDrillDiameter tk diameter p)) p = true <->
      diameter = mDrillDiameter p) /\
  (forall side, operator_eq (fst (setBoardSide tk side p)) p = true <-> side = mBoardSide p).
Proof.
  repeat split; intros H;
    try (apply operator_eq_true_iff in H; simpl in H; intuition congruence);
    try (apply operator_eq_true_iff; simpl; subst; repeat split).
Qed.

(** X6.  Setters compose as assignments do: two calls of different setters
    give the same pad in either order, and of two calls of the same setter
    only the later one counts. *)
Theorem setters_commute_and_overwrite (tk : Toolkit) (a b : Setter) (p : FootprintPad) :
  (sameSetter a b = false ->
   runSetter tk a (runSetter tk b p) = runSetter tk b (runSetter tk a p)) /\
  (sameSetter a b = true ->
   runSetter tk a (runSetter tk b p) = runSetter tk a p).
Proof.
  destruct p as [uuid pos rot shape width height drill side item].
  split; intros H; destruct a, b; simpl in H; try discriminate H; reflexivity.
Qed.

(** X7.  The setters of position, rotation, shape and board side keep the
    attributes valid or invalid as they were; after the other four setters
    the attributes are valid exactly when the new value passes its own check
    and the remaining three checks passed before. *)
Theorem validity_after_setters (tk : Toolkit) (p : FootprintPad) :
  (forall pos, checkAttributesValidity (fst (setPosition tk pos p)) =
               checkAttributesValidity p) /\
  (forall rot, checkAttributesValidity (fst (setRotation tk rot p)) =
               checkAttributesValidity p) /\
  (forall shape, checkAttributesValidity (fst (setShape tk shape p)) =
                 checkAttributesValidity p) /\
  (forall side, checkAttributesValidity (fst (setBoardSide tk side p)) =
                checkAttributesValidity p) /\
  (forall width,
      checkAttributesValidity p = true ->
      (checkAttributesValidity (fst (setWidth tk width p)) = true <-> (0 < toNm width)%Z)) /\
  (forall height,
      checkAttributesValidity p = true ->
      (checkAttributesValidity (fst (setHeight tk height p)) = true <->
       (0 < toNm height)%Z)) /\
  (forall diameter,
      checkAttributesValidity p = true ->
      (checkAttributesValidity (fst (setDrillDiameter tk diameter p)) = true <->
       (0 <= toNm diameter)%Z)) /\
  (forall pad,
      checkAttributesValidity p = true ->
      (checkAttributesValidity (fst (setPackagePadUuid tk pad p)) = true <->
       Uuid_isNull pad = false)).
Proof.
  repeat split; try reflexivity;
    match goal with
    | Hv : checkAttributesValidity p = true |- _ =>
        apply checkAttributesValidity_true_iff in Hv; destruct Hv as (Hu & Hw & Hh & Hd)
    end;
    try (intros Hn; apply checkAttributesValidity_true_iff in Hn; simpl in Hn; tauto);
    try (intros Hn; apply checkAttributesValidity_true_iff; simpl; tauto).
Qed.

(** X8.  The painter path of a pad depends on its shape, width, height and
    board side only, and on the drill diameter only for a through-hole pad:
    setting the position, the rotation or the package pad leaves it as it
    was, and so does setting the drill diameter of a pad on the top or the
    bottom side. *)
Theorem painter_path_frame (tk : Toolkit) (p : FootprintPad) (expansion : Length) :
  (forall pos, toQPainterPathPx tk (fst (setPosition tk pos p)) expansion =
               toQPainterPathPx tk p expansion) /\
  (forall rot, toQPainterPathPx tk (fst (setRotation tk rot p)) expansion =
               toQPainterPathPx tk p expansion) /\
  (forall pad, toQPainterPathPx tk (fst (setPackagePadUuid tk pad p)) expansion =
               toQPainterPathPx tk p expansion) /\
  (forall diameter,
      mBoardSide p <> THT ->
      toQPainterPathPx tk (fst (setDrillDiameter tk diameter p)) expansion =
      toQPainterPathPx tk p expansion /\
      toQPainterPathPx tk p expansion = Path_toQPainterPathPx tk (getOutline tk p expansion)).
Proof.
  split; [| split; [| split]]; try (intros v; reflexivity).
  intros diameter Hs. unfold toQPainterPathPx. simpl.
  destruct (mBoardSide p) eqn:E; try contradiction; split; reflexivity.
Qed.

(** X10.  A setter talks to the registered graphics item only: without a
    registered item no setter makes a call, with one every call goes to it,
    and [setPackagePadUuid] never makes a call. *)
Theorem setters_call_the_registered_item_only
    (tk : Toolkit) (c : Setter) (p : FootprintPad) :
  (mRegisteredGraphicsItem p = None -> callsOfSetter tk c p = []) /\
  (forall item call,
      In (item, call) (callsOfSetter tk c p) -> mRegisteredGraphicsItem p = Some item) /\
  (forall pad, callsOfSetter tk (SetPackagePadUuid pad) p = []).
Proof.
  destruct p as [uuid pos rot shape width height drill side [registered |]].
  - split; [discriminate |]. split; [| reflexivity].
    intros item call H. destruct c; simpl in H;
      repeat (destruct H as [H | H]; [inversion H; reflexivity |]); contradiction.
  - split; [intros _; destruct c; reflexivity |]. split; [| reflexivity].
    intros item call H. destruct c; simpl in H; contradiction.
Qed.

(** *** Concrete runs of the further properties of serialization *)

Lemma equal_pads_serialize_alike_example :
  serialize (Uuid_codec:=plainUuid) (Length_codec:=decimalLength)
    (Angle_codec:=decimalAngle) (registerGraphicsItem 5 examplePad) (createList "pad") =
  serialize (Uuid_codec:=plainUuid) (Length_codec:=decimalLength)
    (Angle_codec:=decimalAngle) examplePad (createList "pad").
Proof.
  exact (equal_pads_serialize_alike (Uuid_codec:=plainUuid) (Length_codec:=decimalLength)
           (Angle_codec:=decimalAngle) (registerGraphicsItem 5 examplePad) examplePad
           (createList "pad") eq_refl).
Defined.

Lemma constructed_pad_is_valid_example :
  FootprintPad_fromSExpression (Uuid_codec:=plainUuid) (Length_codec:=decimalLength)
    (Angle_codec:=decimalAngle) exampleNode = Ok exampleNodePad /\
  checkAttributesValidity exampleNodePad = true /\
  mRegisteredGraphicsItem exampleNodePad = None.
Proof.
  assert (Hrun :
    FootprintPad_fromSExpression (Uuid_codec:=plainUuid) (Length_codec:=decimalLength)
      (Angle_codec:=decimalAngle) exampleNode = Ok exampleNodePad) by reflexivity.
  split; [exact Hrun |].
  destruct (constructed_pad_is_valid (Uuid_codec:=plainUuid) (Length_codec:=decimalLength)
              (Angle_codec:=decimalAngle) exampleNode Hrun) as (Hv & Hi & _).
  split; [exact Hv | exact Hi].
Defined.

Lemma serialize_injective_example :
  operator_eq (registerGraphicsItem 5 examplePad) examplePad = true.
Proof.
  exact (serialize_injective plainUuid_roundtrip decimalLength_roundtrip
           decimalAngle_roundtrip (registerGraphicsItem 5 examplePad) examplePad "pad"
           eq_refl eq_refl).
Defined.

(** *** Concrete runs of the further properties of the setters *)

Lemma setters_commute_example :
  runSetter symbolicToolkit (SetWidth (mkLength 700000))
    (runSetter symbolicToolkit (SetBoardSide BOTTOM) examplePad) =
  runSetter symbolicToolkit (SetBoardSide BOTTOM)
    (runSetter symbolicToolkit (SetWidth (mkLength 700000)) examplePad) /\
  runSetter symbolicToolkit (SetWidth (mkLength 700000))
    (runSetter symbolicToolkit (SetWidth (mkLength 900000)) examplePad) =
  runSetter symbolicToolkit (SetWidth (mkLength 700000)) examplePad.
Proof.
  split.
  - exact (proj1 (setters_commute_and_overwrite symbolicToolkit
                    (SetWidth (mkLength 700000)) (SetBoardSide BOTTOM) examplePad) eq_refl).
  - exact (proj2 (setters_commute_and_overwrite symbolicToolkit
                    (SetWidth (mkLength 700000)) (SetWidth (mkLength 900000)) examplePad)
             eq_refl).
Defined.

Lemma validity_after_setWidth_example :
  checkAttributesValidity (fst (setWidth symbolicToolkit (mkLength 700000) examplePad)) =
  true.
Proof.
  apply (proj1 (proj2 (proj2 (proj2 (proj2 (validity_after_setters symbolicToolkit
                                              examplePad)))))
           (mkLength 700000) eq_refl).
  simpl. lia.
Defined.

Lemma painter_path_frame_example :
  toQPainterPathPx symbolicToolkit
    (fst (setDrillDiameter symbolicToolkit (mkLength 300000) exampleNodePad)) (mkLength 0) =
  Outline (CenteredRect (mkLength 600000) (mkLength 900000)).
Proof.
  destruct (proj2 (proj2 (proj2 (painter_path_frame symbolicToolkit exampleNodePad
                                   (mkLength 0))))
              (mkLength 300000)) as [H1 H2]; [discriminate |].
  rewrite H1. exact H2.
Defined.

Lemma setters_without_item_example :
  callsOfSetter symbolicToolkit (SetBoardSide BOTTOM) examplePad = [] /\
  callsOfSetter symbolicToolkit (SetBoardSide BOTTOM) (registerGraphicsItem 5 examplePad) =
  [ (5, Item_setLayerName symbolicToolkit "bot_cu");
    (5, Item_setShape symbolicToolkit
          (Outline (Octagon (mkLength 1500000) (mkLength 2500000)))) ].
Proof.
  split.
  - exact (proj1 (setters_call_the_registered_item_only symbolicToolkit
                    (SetBoardSide BOTTOM) examplePad) eq_refl).
  - reflexivity.
Defined.


End FootprintPadSpec.

(** * Properties of the editor state *)

Module AddComponentsSpec.
Import Common Project.

Section MachineFacts.

Variable World : Type.
Variable QPointF : Type.
Variable Version : Type.
Variable FilePath : Type.
Variable ext : Externals World QPointF Version FilePath.

Implicit Types (s : SES_AddComponents) (w : World).

Local Open Scope machine_scope.

(** ** Rules for the outcome of a member function *)

Lemma post_ret {A : Type} (a : A) s w (Q : A -> SES_AddComponents -> Prop) E :
  Q a s -> post (ret a) s w Q E.
Proof. intros H. exact H. Qed.

Lemma post_bind {A B : Type} (c : M World A) (k : A -> M World B) s w
    (Q : B -> SES_AddComponents -> Prop) E :
  post c s w (fun a s' => forall w', post (k a) s' w' Q E) E ->
  post (bind c k) s w Q E.
Proof.
  unfold post, bind. destruct (c s w) as [a s' w' | e s' w' |]; auto.
  intros H. apply H.
Qed.

Lemma post_throw {A : Type} (e : Exception) s w (Q : A -> SES_AddComponents -> Prop)
    (E : SES_AddComponents -> Prop) :
  E s -> post (throw e) s w Q E.
Proof. intros H. exact H. Qed.

Lemma post_tryCatch {A : Type} (body : M World A) (handler : Exception -> M World A) s w
    (Q : A -> SES_AddComponents -> Prop) E :
  post body s w Q (fun s' => forall e w', post (handler e) s' w' Q E) ->
  post (tryCatch body handler) s w Q E.
Proof.
  unfold post, tryCatch. destruct (body s w) as [a s' w' | e s' w' |]; auto.
  intros H. apply H.
Qed.

Lemma post_gets {A : Type} (f : SES_AddComponents -> A) s w
    (Q : A -> SES_AddComponents -> Prop) E :
  Q (f s) s -> post (gets f) s w Q E.
Proof. intros H. exact H. Qed.

Lemma post_modify (f : SES_AddComponents -> SES_AddComponents) s w
    (Q : unit -> SES_AddComponents -> Prop) E :
  Q tt (f s) -> post (modify f) s w Q E.
Proof. intros H. exact H. Qed.

Lemma post_ask {A : Type} (f : World -> A) s w (Q : A -> SES_AddComponents -> Prop) E :
  (forall a, Q a s) -> post (ask f) s w Q E.
Proof. intros H. apply H. Qed.

Lemma post_tell (f : World -> World) s w (Q : unit -> SES_AddComponents -> Prop) E :
  Q tt s -> post (tell f) s w Q E.
Proof. intros H. exact H. Qed.

Lemma post_call {A : Type} (f : World -> A * World) s w
    (Q : A -> SES_AddComponents -> Prop) E :
  (forall a, Q a s) -> post (call f) s w Q E.
Proof. intros H. unfold post, call. destruct (f w). apply H. Qed.

Lemma post_attempt {A : Type} (f : World -> Result A * World) s w
    (Q : A -> SES_AddComponents -> Prop) (E : SES_AddComponents -> Prop) :
  (forall a, Q a s) -> E s -> post (attempt f) s w Q E.
Proof.
  intros HQ HE. unfold post, attempt. destruct (f w) as [[a | e] w']; [apply HQ | exact HE].
Qed.

Lemma post_deref {A : Type} (p : option A) s w (Q : A -> SES_AddComponents -> Prop) E :
  (forall a, p = Some a -> Q a s) -> post (deref p) s w Q E.
Proof. intros H. unfold post, deref. destruct p; [apply H; reflexivity | exact I]. Qed.

Lemma post_any {A : Type} (c : M World A) s w (Q : A -> SES_AddComponents -> Prop)
    (E : SES_AddComponents -> Prop) :
  (forall a s', Q a s') -> (forall s', E s') -> post c s w Q E.
Proof. intros HQ HE. unfold post. destruct (c s w); auto. Qed.

Lemma post_returns {A : Type} (c : M World A) s w Q E (a : A) s' w' :
  post c s w Q E -> c s w = Returns a s' w' -> Q a s'.
Proof. unfold post. intros H Heq. rewrite Heq in H. exact H. Qed.

Arguments post_returns {A c s w Q E a s' w'} _ _.

Lemma post_weaken {A : Type} (c : M World A) s w
    (Q Q' : A -> SES_AddComponents -> Prop) (E E' : SES_AddComponents -> Prop) :
  post c s w Q E ->
  (forall a s', Q a s' -> Q' a s') ->
  (forall s', E s' -> E' s') ->
  post c s w Q' E'.
Proof.
  unfold post. intros H HQ HE. destruct (c s w); auto.
Qed.

Arguments post_weaken {A c s w Q Q' E E'} _ _ _.

(** One step of a member function: the rule of its outermost construct. *)
Ltac step :=
  lazymatch goal with
  | |- post (bind _ _) _ _ _ _ => apply post_bind
  | |- post (ret _) _ _ _ _ => apply post_ret
  | |- post (throw _) _ _ _ _ => apply post_throw
  | |- post (tryCatch _ _) _ _ _ _ => apply post_tryCatch
  | |- post (gets _) _ _ _ _ => apply post_gets
  | |- post (modify _) _ _ _ _ => apply post_modify
  | |- post (ask _) _ _ _ _ => apply post_ask
  | |- post (tell _) _ _ _ _ => apply post_tell
  | |- post (call _) _ _ _ _ => apply post_call
  | |- post (attempt _) _ _ _ _ => apply post_attempt
  | |- post (deref _) _ _ _ _ => apply post_deref
  | |- post (match ?x with _ => _ end) _ _ _ _ => destruct x eqn:?
  | |- forall _, _ => intro
  end; cbn beta.

(** ** [abortCommand] *)

Lemma abortCommand_eq (showErrMsgBox : bool) s w :
  abortCommand ext showErrMsgBox s w =
  let w1 := match mCurrentSymbolEditCommand s with
            | Some c => cmdSymbolInstanceEdit_delete ext c w
            | None => w
            end in
  if mIsUndoCmdActive s then
    match undo_abortCommand ext w1 with
    | (Ok _, w2) => Returns true (resetState s) w2
    | (Throw e, w2) =>
        Returns false (set_mCurrentSymbolEditCommand None s)
          (if showErrMsgBox then msgBox_error ext e w2 else w2)
    end
  else Returns true (resetState s) w1.
Proof.
  destruct s as [active dlg angle gc sv item symbol cmd].
  unfold abortCommand, tryCatch, bind, gets, modify, tell, attempt, ret. simpl.
  destruct cmd as [c |], active; simpl;
    try destruct (undo_abortCommand ext _) as [[[] | e] w2]; simpl;
    try destruct showErrMsgBox; reflexivity.
Qed.

Lemma resetState_isReset s : isReset (resetState s).
Proof. unfold isReset, resetState. simpl. repeat split. Qed.

(** [abortCommand] always returns; [true] comes with the reset state,
    [false] only when the undo stack refused to abort an active command,
    and then the command stays active. *)
Lemma post_abortCommand (showErrMsgBox : bool) s w
    (Q : bool -> SES_AddComponents -> Prop) (E : SES_AddComponents -> Prop) :
  Q true (resetState s) ->
  (mIsUndoCmdActive s = true ->
   (exists w1 e w2, undo_abortCommand ext w1 = (Throw e, w2)) ->
   Q false (set_mCurrentSymbolEditCommand None s)) ->
  post (abortCommand ext showErrMsgBox) s w Q E.
Proof.
  intros Ht Hf. unfold post. rewrite abortCommand_eq. cbn zeta.
  destruct (mIsUndoCmdActive s) eqn:Ha; [| exact Ht].
  destruct (undo_abortCommand ext _) as [[[] | e] w2] eqn:Hu; [exact Ht |].
  apply Hf; [reflexivity | eauto].
Qed.

Lemma abortCommand_true_reset (showErrMsgBox : bool) s w s' w' :
  abortCommand ext showErrMsgBox s w = Returns true s' w' -> isReset s'.
Proof.
  intros H.
  assert (P : post (abortCommand ext showErrMsgBox) s w
                (fun r s' => r = true -> isReset s') (fun _ => True)).
  { apply post_abortCommand.
    - intros _. apply resetState_isReset.
    - intros _ _. discriminate. }
  exact (post_returns P H eq_refl).
Qed.

(** ** [exit] *)

Lemma exit_true_reset ev s w s' w' :
  exit ext ev s w = Returns true s' w' ->
  isReset s' /\ mAddGenCompDialog s' = None.
Proof.
  intros H.
  assert (P : post (exit ext ev) s w
                (fun r s' => r = true -> isReset s' /\ mAddGenCompDialog s' = None)
                (fun _ => True)).
  { unfold exit, deleteDialog. step.
    apply post_abortCommand.
    - intros w1. cbn [negb]. repeat step; unfold isReset; simpl; repeat split.
    - intros _ _ w1. cbn [negb]. step. discriminate. }
  exact (post_returns P H eq_refl).
Qed.

(** ** [processSceneEvent] *)

Lemma placeCurrentSymbol_stays schematic pos s w :
  post (placeCurrentSymbol ext schematic pos) s w
    (fun r _ => r = ForceStayInState) (fun _ => True).
Proof.
  unfold placeCurrentSymbol.
  repeat first
    [ exact I
    | reflexivity
    | match goal with
      | |- post (bind (abortCommand _ _) _) _ _ _ _ =>
          apply post_bind; apply post_any; [intros ? ? ? | intros ?]
      | |- post (bind (startAddingComponent _ _ _) _) _ _ _ _ =>
          apply post_bind; apply post_any; [intros ? ? ? | intros ?]
      end
    | step ].
Qed.

Lemma processSceneEvent_leave ev s w s' w' :
  processSceneEvent ext ev s w = Returns ForceLeaveState s' w' ->
  mIsUndoCmdActive s' = false -> isReset s'.
Proof.
  intros H.
  assert (P : post (processSceneEvent ext ev) s w
                (fun r s' => r = ForceLeaveState -> mIsUndoCmdActive s' = false -> isReset s')
                (fun _ => True)).
  { unfold processSceneEvent.
    repeat first
      [ exact I
      | discriminate
      | match goal with
        | |- post (placeCurrentSymbol _ _ _) _ _ _ _ =>
            apply (post_weaken (placeCurrentSymbol_stays _ _ _ _));
            [ intros r s1 ->; discriminate | intros s1 _ e' w2 ]
        | |- post (bind (abortCommand _ _) _) _ _ _ _ =>
            apply post_bind; apply post_abortCommand;
            [ intros w3; step; intros _ _; apply resetState_isReset
            | intros Ha _ w3; step; intros _ Hf; simpl in Hf; congruence ]
        | |- post (if ?b then _ else _) _ _ _ _ => destruct b
        end
      | step ]. }
  exact (post_returns P H eq_refl).
Qed.

(** ** [entry] *)

Lemma EventType_eqb_eq (a b : EventType) : EventType_eqb a b = true <-> a = b.
Proof.
  destruct a, b; simpl; split; try congruence; try discriminate.
  - intros H. apply Nat.eqb_eq in H. congruence.
  - intros H. inversion H. apply Nat.eqb_refl.
Qed.

Lemma entry_null s w : entry ext None s w = Returns false s w.
Proof. reflexivity. Qed.

Lemma entry_other_type ev s w :
  getType ev <> StartAddComponent -> entry ext (Some ev) s w = Returns false s w.
Proof.
  intros Ht. unfold entry.
  destruct (EventType_eqb (getType ev) StartAddComponent) eqn:E.
  - apply EventType_eqb_eq in E. contradiction.
  - reflexivity.
Qed.

(** The [catch] clauses of [entry], from any state: the dialog is gone, and
    the undo command is still active exactly when the start left it active
    and the call of [UndoStack::abortCommand] made by this run threw. *)
Lemma entry_failed_start ev g v s w s' w' :
  getType ev = StartAddComponent ->
  asStartAddComponent ev = Some (g, v) ->
  entry ext (Some ev) s w = Returns false s' w' ->
  mAddGenCompDialog s' = None /\
  exists e s1 w1,
    startAddingComponent ext g v (set_mLastAngle (Angle_setAngleMicroDeg 0) s) w =
    Throws e s1 w1 /\
    (mIsUndoCmdActive s' = true <->
     mIsUndoCmdActive s1 = true /\
     exists e2 w2,
       undo_abortCommand ext (worldAtAbort ext s1 (worldAfterStartError ext e w1)) =
       (Throw e2, w2)).
Proof.
  intros Ht Hp H. unfold entry in H. rewrite Ht, Hp in H.
  cbn [EventType_eqb negb] in H.
  unfold bind at 1 in H. unfold modify at 1 in H.
  unfold bind at 1 in H. unfold tryCatch at 1 in H. unfold bind at 1 in H.
  destruct (startAddingComponent ext g v (set_mLastAngle (Angle_setAngleMicroDeg 0) s) w)
    as [a s1 w1 | e s1 w1 |] eqn:Hs.
  - unfold ret, bind, tell in H. simpl in H. discriminate H.
  - unfold bind, gets, deleteDialog, modify, ret in H.
    assert (Hm : (match e with
                  | UserCanceled => ret tt
                  | _ => tell (msgBox_couldNotAdd ext e)
                  end) s1 w1 = Returns tt s1 (worldAfterStartError ext e w1))
      by (destruct e; reflexivity).
    unfold ret in Hm. rewrite Hm in H. clear Hm.
    destruct (mIsUndoCmdActive s1) eqn:Ha.
    + rewrite abortCommand_eq in H. cbn zeta in H. rewrite Ha in H.
      fold (worldAtAbort ext s1 (worldAfterStartError ext e w1)) in H.
      destruct (undo_abortCommand ext
                  (worldAtAbort ext s1 (worldAfterStartError ext e w1)))
        as [[[] | e2] w2] eqn:Hu.
      * unfold bind, gets, tell in H. simpl in H.
        destruct (mAddGenCompDialog s1); simpl in H; inversion H; subst;
          (split; [reflexivity |]); exists e, s1, w1; (split; [reflexivity |]);
          simpl; (split; [discriminate | intros (_ & ? & ? & E); congruence]).
      * unfold bind, gets, tell in H. simpl in H.
        destruct (mAddGenCompDialog s1); simpl in H; inversion H; subst;
          (split; [reflexivity |]); exists e, s1, w1; (split; [reflexivity |]);
          simpl; (split; [intros _; split; [exact Ha | eauto] | intros _; exact Ha]).
    + unfold bind, gets, tell in H. simpl in H.
      destruct (mAddGenCompDialog s1); simpl in H; inversion H; subst;
        (split; [reflexivity |]); exists e, s1, w1; (split; [reflexivity |]);
        simpl; rewrite Ha; (split; [discriminate | intros [E _]; discriminate E]).
  - discriminate H.
Qed.

Lemma startAddingComponent_throws_nothingPlaced g v s w :
  nothingPlaced s ->
  post (startAddingComponent ext g v) s w (fun _ _ => True) nothingPlaced.
Proof.
  intros HI. unfold startAddingComponent.
  repeat first
    [ exact I
    | match goal with
      | |- nothingPlaced _ =>
          unfold nothingPlaced in *; simpl; intros;
              first [discriminate | congruence | auto]
      | |- _ /\ _ => split
      end
    | step ].
Qed.

Lemma entry_failed_from_idle ev s w s' w' :
  isReset s ->
  entry ext (Some ev) s w = Returns false s' w' ->
  mIsUndoCmdActive s' = false ->
  mCurrentSymbolEditCommand s' = None /\
  mCurrentSymbVarItem s' = None /\
  mCurrentSymbolToPlace s' = None.
Proof.
  intros Hs H.
  assert (Hn : nothingPlaced s)
    by (destruct Hs as (_ & He & _ & _ & Hi & Hp); intros _; auto).
  assert (P : post (entry ext (Some ev)) s w (fun r s' => r = false -> nothingPlaced s')
                (fun _ => True)).
  { unfold entry, deleteDialog.
    destruct (EventType_eqb (getType ev) StartAddComponent); cbn [negb];
      [| step; intros _; exact Hn].
    destruct (asStartAddComponent ev) as [[g v] |]; [| step; intros _; exact Hn].
    do 4 step. apply post_tryCatch. apply post_bind.
    eapply post_weaken;
      [apply startAddingComponent_throws_nothingPlaced; exact Hn | |].
    - intros a1 s1 _ w1. repeat step; simpl in *; discriminate.
    - intros s1 H1 e w1.
      repeat first
        [ match goal with
          | |- post (abortCommand _ _) _ _ _ _ => apply post_abortCommand
          | |- post (if ?b then _ else _) _ _ _ _ => destruct b eqn:?
          | |- nothingPlaced _ =>
              unfold nothingPlaced in *; simpl; intros;
              first [discriminate | congruence | auto]
          end
        | step ]. }
  exact (post_returns P H eq_refl).
Qed.

(** C6 (amended).  [entry] accepts only events of type [StartAddComponent]:
    for the null event and for an event of any other type it returns
    [false] and changes nothing.  When it returns [false] after a failed
    start, [startAddingComponent] has thrown, the dialog pointer is null,
    and no undo command is left active unless the call of
    [UndoStack::abortCommand] made by this run threw: the command is still
    active exactly when the start left it active and that call threw. *)
Theorem entry_accepts_only_StartAddComponent :
  (forall s w, entry ext None s w = Returns false s w) /\
  (forall ev s w,
      getType ev <> StartAddComponent -> entry ext (Some ev) s w = Returns false s w) /\
  (forall ev g v s w s' w',
      getType ev = StartAddComponent ->
      asStartAddComponent ev = Some (g, v) ->
      entry ext (Some ev) s w = Returns false s' w' ->
      mAddGenCompDialog s' = None /\
      exists e s1 w1,
        startAddingComponent ext g v (set_mLastAngle (Angle_setAngleMicroDeg 0) s) w =
        Throws e s1 w1 /\
        (mIsUndoCmdActive s' = true <->
         mIsUndoCmdActive s1 = true /\
         exists e2 w2,
           undo_abortCommand ext (worldAtAbort ext s1 (worldAfterStartError ext e w1)) =
           (Throw e2, w2))).
Proof.
  split; [exact entry_null |].
  split; [exact entry_other_type | exact entry_failed_start].
Qed.

(** C7 (amended).  Whenever [abortCommand] returns [true] the state is
    reset: no undo command is active and the edit command, the component,
    its symbol variant, the current item and the symbol to place are null.
    The same holds after every successful [exit], and after the error that
    [processSceneEvent] handles ([ForceLeaveState]) if the undo command could
    be aborted.  After a failed start that [entry] handles from the reset
    state, if no undo command is left active, the edit command, the current
    item and the symbol to place are null. *)
Theorem reset_after_abort_exit_and_handled_errors :
  (forall showErrMsgBox s w s' w',
      abortCommand ext showErrMsgBox s w = Returns true s' w' -> isReset s') /\
  (forall ev s w s' w',
      exit ext ev s w = Returns true s' w' -> isReset s') /\
  (forall ev s w s' w',
      processSceneEvent ext ev s w = Returns ForceLeaveState s' w' ->
      mIsUndoCmdActive s' = false -> isReset s') /\
  (forall ev s w s' w',
      isReset s ->
      entry ext (Some ev) s w = Returns false s' w' ->
      mIsUndoCmdActive s' = false ->
      mCurrentSymbolEditCommand s' = None /\
      mCurrentSymbVarItem s' = None /\
      mCurrentSymbolToPlace s' = None).
Proof.
  split; [exact abortCommand_true_reset |].
  split; [intros ev s w s' w' H; exact (proj1 (exit_true_reset _ _ _ H)) |].
  split; [exact processSceneEvent_leave | exact entry_failed_from_idle].
Qed.

(** ** Scene events while idle and events without a handler *)




(** ** Rotation *)

(** C10.  For an event of type [Edit_RotateCW] (or [Edit_RotateCCW])
    [process] dereferences the edit command and the symbol to place: if one
    of them is null the behaviour is undefined; if both are set, the edit
    command is told to rotate by +90 (or -90) degrees about the position of
    the symbol, at once, nothing else changes, and [process] returns
    [ForceStayInState]. *)
Theorem process_rotate (ev : SEE_Base QPointF) s w :
  getType ev = Edit_RotateCW \/ getType ev = Edit_RotateCCW ->
  process ext (Some ev) s w =
  match mCurrentSymbolEditCommand s, mCurrentSymbolToPlace s with
  | Some edit, Some symbol =>
      Returns ForceStayInState s
        (cmdSymbolInstanceEdit_rotate ext edit
           (match getType ev with
            | Edit_RotateCW => mkAngle 90000000
            | _ => mkAngle (-90000000)
            end)
           (symbol_getPosition ext symbol w) true w)
  | _, _ => Undefined
  end.
Proof.
  intros [Ht | Ht]; unfold process, bind, deref, gets, ask, tell, ret;
    rewrite Ht;
    destruct (mCurrentSymbolEditCommand s) as [edit |],
             (mCurrentSymbolToPlace s) as [symbol |]; reflexivity.
Qed.

(** ** Errors that [process] handles *)

(** The [catch] clauses of [process] do not abort: when the start of
    another component throws, [process] shows the error (unless the user
    cancelled), passes the event to the parent state and leaves the state
    object as [startAddingComponent] left it, an undo command that was begun
    included. *)
Theorem process_handler_does_not_abort (ev : SEE_Base QPointF) g v s w s0 w0 e s1 w1 :
  getType ev = StartAddComponent ->
  asStartAddComponent ev = Some (g, v) ->
  abortCommand ext true s w = Returns true s0 w0 ->
  startAddingComponent ext g v (set_mLastAngle (Angle_setAngleMicroDeg 0) s0) w0 =
  Throws e s1 w1 ->
  process ext (Some ev) s w =
  Returns PassToParentState s1
    (match e with
     | UserCanceled => w1
     | _ => msgBox_error ext e w1
     end).
Proof.
  intros Ht Hp Habort Hstart.
  unfold process. cbn [deref bind]. rewrite Ht.
  unfold tryCatch, bind at 1. rewrite Habort. cbn [negb].
  unfold bind at 1, modify at 1. unfold bind at 1. rewrite Hp. cbn [deref fst snd].
  unfold bind at 1. rewrite Hstart.
  unfold processHandler. destruct e; reflexivity.
Qed.

(** ** Further properties of the editor state *)

Lemma post_throws {A : Type} (c : M World A) s w Q E e s' w' :
  post c s w Q E -> c s w = Throws e s' w' -> E s'.
Proof. unfold post. intros H Heq. rewrite Heq in H. exact H. Qed.

Arguments post_throws {A c s w Q E e s' w'} _ _.

(** *** No exception leaves a member function declared [noexcept] *)

Lemma abortCommand_catches showErrMsgBox s w :
  post (abortCommand ext showErrMsgBox) s w (fun _ _ => True) (fun _ => False).
Proof. apply post_abortCommand; intros; exact I. Qed.

(** The steps of a proof that nothing is thrown: a [try] block may do
    anything, its handlers are walked through. *)
Ltac quiet :=
  repeat first
    [ exact I
    | match goal with
      | |- post (tryCatch _ _) _ _ _ _ => apply post_tryCatch; apply post_any; intros
      | |- post (abortCommand _ _) _ _ _ _ => apply post_abortCommand; intros
      end
    | step ].

Lemma exit_catches ev s w :
  post (exit ext ev) s w (fun _ _ => True) (fun _ => False).
Proof. unfold exit, deleteDialog. quiet. Qed.

Lemma entry_catches ev s w :
  post (entry ext ev) s w (fun _ _ => True) (fun _ => False).
Proof. unfold entry, deleteDialog. quiet. Qed.

Lemma processSceneEvent_catches ev s w :
  post (processSceneEvent ext ev) s w (fun _ _ => True) (fun _ => False).
Proof. unfold processSceneEvent. quiet. Qed.

Lemma process_catches ev s w :
  post (process ext ev) s w (fun _ _ => True) (fun _ => False).
Proof.
  unfold process, processHandler.
  repeat first
    [ exact I
    | match goal with
      | |- post (processSceneEvent _ _) _ _ _ _ =>
          apply (post_weaken (processSceneEvent_catches _ _ _)); [intros; exact I | tauto]
      | |- post (tryCatch _ _) _ _ _ _ => apply post_tryCatch; apply post_any; intros
      end
    | step ].
Qed.

(** X14.  The five member functions that are declared [noexcept] keep the
    promise: whatever the undo stack, the constructors of the undo commands
    and the reader of the component file throw, [abortCommand], [entry],
    [exit], [processSceneEvent] and [process] never leave by an exception. *)
Theorem noexcept_functions_do_not_throw :
  (forall showErrMsgBox s w e s' w',
      abortCommand ext showErrMsgBox s w <> Throws e s' w') /\
  (forall ev s w e s' w', entry ext ev s w <> Throws e s' w') /\
  (forall ev s w e s' w', exit ext ev s w <> Throws e s' w') /\
  (forall ev s w e s' w', processSceneEvent ext ev s w <> Throws e s' w') /\
  (forall ev s w e s' w', process ext ev s w <> Throws e s' w').
Proof.
  split; [| split; [| split; [| split]]]; intros until w'; intros H.
  - exact (post_throws (abortCommand_catches _ _ _) H).
  - exact (post_throws (entry_catches _ _ _) H).
  - exact (post_throws (exit_catches _ _ _) H).
  - exact (post_throws (processSceneEvent_catches _ _ _) H).
  - exact (post_throws (process_catches _ _ _) H).
Qed.

(** *** [abortCommand] and [exit] in detail *)

Lemma isReset_resetState s : isReset s -> resetState s = s.
Proof.
  destruct s as [active dlg angle gc sv item symbol cmd].
  unfold isReset, resetState. simpl.
  intros (-> & -> & -> & -> & -> & ->). reflexivity.
Qed.

Lemma abortCommand_idle showErrMsgBox s w :
  isReset s -> abortCommand ext showErrMsgBox s w = Returns true s w.
Proof.
  intros Hs. rewrite abortCommand_eq. cbn zeta.
  destruct Hs as (Ha & Hc & Hrest).
  rewrite Ha, Hc.
  rewrite (isReset_resetState (s := s)); [reflexivity |].
  unfold isReset. tauto.
Qed.

(** X15.  In the reset state [abortCommand] does nothing and returns
    [true]: no command is deleted and the undo stack is not called.  In any
    state it keeps the dialog and the last angle; and when it returns
    [false], an undo command was and still is active and the component, its
    symbol variant, the current item and the symbol to place are kept. *)
Theorem abortCommand_idle_and_frame :
  (forall showErrMsgBox s w,
      isReset s -> abortCommand ext showErrMsgBox s w = Returns true s w) /\
  (forall showErrMsgBox s w r s' w',
      abortCommand ext showErrMsgBox s w = Returns r s' w' ->
      mAddGenCompDialog s' = mAddGenCompDialog s /\
      mLastAngle s' = mLastAngle s /\
      (r = false ->
       mIsUndoCmdActive s = true /\
       mIsUndoCmdActive s' = true /\
       mGenComp s' = mGenComp s /\
       mGenCompSymbVar s' = mGenCompSymbVar s /\
       mCurrentSymbVarItem s' = mCurrentSymbVarItem s /\
       mCurrentSymbolToPlace s' = mCurrentSymbolToPlace s)).
Proof.
  split.
  - intros b s w Hs. apply abortCommand_idle. exact Hs.
  - intros b s w r s' w' H.
    assert (P : post (abortCommand ext b) s w
                  (fun r s' =>
                     mAddGenCompDialog s' = mAddGenCompDialog s /\
                     mLastAngle s' = mLastAngle s /\
                     (r = false ->
                      mIsUndoCmdActive s = true /\
                      mIsUndoCmdActive s' = true /\
                      mGenComp s' = mGenComp s /\
                      mGenCompSymbVar s' = mGenCompSymbVar s /\
                      mCurrentSymbVarItem s' = mCurrentSymbVarItem s /\
                      mCurrentSymbolToPlace s' = mCurrentSymbolToPlace s))
                  (fun _ => True)).
    { apply post_abortCommand.
      - simpl. split; [reflexivity |]. split; [reflexivity | discriminate].
      - intros Ha _. simpl. repeat split; auto. }
    exact (post_returns P H).
Qed.

(** X16.  [exit] succeeds whenever no undo command is active or the call of
    [UndoStack::abortCommand] that this run makes does not throw; when it
    returns [false], the command was active and that call threw, the undo
    command is still active and the dialog is kept; and when it returns
    [true] the dialog pointer is null. *)
Theorem exit_outcomes :
  (forall ev s w,
      mIsUndoCmdActive s = false \/
      fst (undo_abortCommand ext (worldAtAbort ext s w)) = Ok tt ->
      exists s' w', exit ext ev s w = Returns true s' w') /\
  (forall ev s w s' w',
      exit ext ev s w = Returns false s' w' ->
      (mIsUndoCmdActive s = true /\
       exists e w2, undo_abortCommand ext (worldAtAbort ext s w) = (Throw e, w2)) /\
      mIsUndoCmdActive s' = true /\ mAddGenCompDialog s' = mAddGenCompDialog s) /\
  (forall ev s w s' w',
      exit ext ev s w = Returns true s' w' -> mAddGenCompDialog s' = None).
Proof.
  split; [| split].
  - intros ev s w Hok. unfold exit, bind. rewrite abortCommand_eq. cbn zeta.
    fold (worldAtAbort ext s w).
    destruct (mIsUndoCmdActive s).
    + destruct Hok as [Hok | Hok]; [discriminate Hok |].
      destruct (undo_abortCommand ext (worldAtAbort ext s w)) as [[[] | e] w2];
        simpl in Hok; [| discriminate Hok].
      cbn [negb]. unfold deleteDialog, bind, gets, modify, tell, ret. simpl.
      destruct (mAddGenCompDialog s); simpl; eauto.
    + cbn [negb]. unfold deleteDialog, bind, gets, modify, tell, ret. simpl.
      destruct (mAddGenCompDialog s); simpl; eauto.
  - intros ev s w s' w' H. unfold exit, bind in H. rewrite abortCommand_eq in H.
    cbn zeta in H. fold (worldAtAbort ext s w) in H.
    destruct (mIsUndoCmdActive s) eqn:Ha.
    + destruct (undo_abortCommand ext (worldAtAbort ext s w)) as [[[] | e] w2] eqn:Hu.
      * cbn [negb] in H. unfold deleteDialog, bind, gets, modify, tell, ret in H.
        simpl in H. destruct (mAddGenCompDialog s); simpl in H; discriminate H.
      * cbn [negb] in H. unfold ret in H. inversion H; subst. simpl.
        split; [split; [reflexivity | eauto] |]. split; [exact Ha | reflexivity].
    + cbn [negb] in H. unfold deleteDialog, bind, gets, modify, tell, ret in H.
      simpl in H. destruct (mAddGenCompDialog s); simpl in H; discriminate H.
  - intros ev s w s' w' H. exact (proj2 (exit_true_reset _ _ _ H)).
Qed.

(** *** Starting a component *)

Ltac placing :=
  unfold isPlacing; simpl in *;
  repeat split; try reflexivity; try congruence; try discriminate.

Lemma startAddingComponent_returns_placing g v s w :
  post (startAddingComponent ext g v) s w
    (fun _ s' => isPlacing s' /\ mLastAngle s' = mLastAngle s) (fun _ => True).
Proof.
  unfold startAddingComponent.
  repeat first
    [ exact I
    | match goal with
      | |- isPlacing _ /\ _ => split; [placing | reflexivity]
      end
    | step ].
Qed.

(** X17.  Whenever [startAddingComponent] returns, a symbol is being
    placed: the undo command is active and the component, its symbol
    variant, the current item, the symbol and its edit command are all set;
    the last angle is untouched.  So after [entry] has returned [true] the
    state is that of placing, with the last angle at zero. *)
Theorem started_means_placing :
  (forall g v s w s' w',
      startAddingComponent ext g v s w = Returns tt s' w' ->
      isPlacing s' /\ mLastAngle s' = mLastAngle s) /\
  (forall ev s w s' w',
      entry ext ev s w = Returns true s' w' ->
      isPlacing s' /\ mLastAngle s' = mkAngle 0).
Proof.
  split.
  - intros g v s w s' w' H.
    exact (post_returns (startAddingComponent_returns_placing g v s w) H).
  - intros ev s w s' w' H.
    assert (P : post (entry ext ev) s w
                  (fun r s' => r = true -> isPlacing s' /\ mLastAngle s' = mkAngle 0)
                  (fun _ => True)).
    { unfold entry, deleteDialog.
      repeat first
        [ exact I
        | discriminate
        | match goal with
          | |- post (bind (startAddingComponent _ _ _) _) _ _ _ _ =>
              apply post_bind;
              eapply post_weaken;
              [ apply startAddingComponent_returns_placing
              | intros ? ? [? ?] ?
              | intros ? _ ]
          | |- post (abortCommand _ _) _ _ _ _ => apply post_abortCommand; intros
          | H1 : isPlacing ?x |- isPlacing ?x /\ _ => split; [exact H1 |]
          | H1 : mLastAngle ?x = _ |- mLastAngle ?x = _ => rewrite H1; reflexivity
          end
        | step ]. }
    exact (post_returns P H eq_refl).
Qed.

(** X18.  When both identifiers are given but the project's library does
    not hold the component, [startAddingComponent] calls
    [getSymbolVariantByUuid] through the null pointer it has just stored:
    the null check that would throw "not found" comes after the call.  The
    behaviour is undefined, in [entry] and [process] as well, whose handlers
    do not see it. *)
Theorem unknown_component_is_dereferenced g v schematic s w :
  editor_getActiveSchematic ext w = Some schematic ->
  QUuid_isNull g = false ->
  QUuid_isNull v = false ->
  library_getGenComp ext g w = None ->
  startAddingComponent ext g v s w = Undefined /\
  entry ext (Some (SEE_StartAddComponent QPointF StartAddComponent g v)) s w = Undefined /\
  (isReset s ->
   process ext (Some (SEE_StartAddComponent QPointF StartAddComponent g v)) s w =
   Undefined).
Proof.
  intros Hs Hg Hv Hl.
  assert (Hstart : forall s0, startAddingComponent ext g v s0 w = Undefined).
  { intros s0. unfold startAddingComponent, bind, ask, gets, modify, deref.
    rewrite Hs, Hg, Hv. cbn [orb]. rewrite Hl. reflexivity. }
  split; [apply Hstart |]. split.
  - unfold entry. cbn [getType asStartAddComponent EventType_eqb negb].
    unfold bind at 1, modify at 1. unfold bind at 1, tryCatch, bind at 1.
    rewrite Hstart. reflexivity.
  - intros Hr. unfold process. cbn [deref bind getType].
    unfold tryCatch, bind at 1.
    rewrite (abortCommand_idle true w Hr). cbn [negb].
    unfold bind at 1, modify at 1. unfold bind at 1. cbn [asStartAddComponent deref fst snd].
    unfold bind at 1. rewrite Hstart. reflexivity.
Qed.

(** X19.  Without an active schematic [startAddingComponent] throws a
    [LogicError] before it touches anything.  When it has to ask the user
    and the dialog is rejected, it throws [UserCanceled]: an existing dialog
    is reused, a missing one is created and kept, and no undo command is
    begun. *)
Theorem startAddingComponent_early_errors :
  (forall g v s w,
      editor_getActiveSchematic ext w = None ->
      startAddingComponent ext g v s w = Throws LogicError s w) /\
  (forall g v schematic dlg s w w1,
      editor_getActiveSchematic ext w = Some schematic ->
      QUuid_isNull g || QUuid_isNull v = true ->
      mAddGenCompDialog s = Some dlg ->
      dialog_exec ext dlg w = (false, w1) ->
      startAddingComponent ext g v s w = Throws UserCanceled s w1) /\
  (forall g v schematic dlg s w w0 w1,
      editor_getActiveSchematic ext w = Some schematic ->
      QUuid_isNull g || QUuid_isNull v = true ->
      mAddGenCompDialog s = None ->
      dialog_new ext w = (dlg, w0) ->
      dialog_exec ext dlg w0 = (false, w1) ->
      startAddingComponent ext g v s w =
      Throws UserCanceled (set_mAddGenCompDialog (Some dlg) s) w1).
Proof.
  split; [| split].
  - intros g v s w Hs. unfold startAddingComponent, bind, ask, throw. rewrite Hs.
    reflexivity.
  - intros g v schematic dlg s w w1 Hs Hn Hd He.
    unfold startAddingComponent, bind, ask, gets, call, throw, ret.
    rewrite Hs, Hn, Hd, He. reflexivity.
  - intros g v schematic dlg s w w0 w1 Hs Hn Hd Hnew He.
    unfold startAddingComponent, bind, ask, gets, call, modify, throw, ret.
    rewrite Hs, Hn, Hd, Hnew. simpl. rewrite He. reflexivity.
Qed.

(** *** Scene events while a symbol is placed *)

Lemma placeCurrentSymbol_keeps_placing schematic pos s w :
  isPlacing s ->
  post (placeCurrentSymbol ext schematic pos) s w (fun _ s' => isPlacing s')
    (fun _ => True).
Proof.
  intros Hp. unfold placeCurrentSymbol.
  destruct Hp as (Ha & Hg & Hv & Hi & Hs & He).
  repeat first
    [ exact I
    | match goal with
      | |- post (bind (startAddingComponent _ _ _) _) _ _ _ _ =>
          apply post_bind;
          eapply post_weaken;
          [ apply startAddingComponent_returns_placing
          | intros ? ? [? ?] ?; step; assumption
          | intros ? _; exact I ]
      | |- post (bind (abortCommand _ _) _) _ _ _ _ =>
          apply post_bind; apply post_any; [intros ? ? ? | intros ?]
      | |- isPlacing _ => placing
      end
    | step ].
Qed.

Lemma processSceneEvent_placing ev s w :
  isPlacing s ->
  post (processSceneEvent ext ev) s w
    (fun r s' => r <> ForceLeaveState -> isPlacing s') (fun _ => True).
Proof.
  intros Hp.
  { unfold processSceneEvent.
    repeat first
      [ exact I
      | assumption
      | match goal with
        | |- post (tryCatch (placeCurrentSymbol _ _ _) _) _ _ _ _ =>
            apply post_tryCatch;
            apply (post_weaken (placeCurrentSymbol_keeps_placing _ _ _ Hp));
            [ intros ? ? ? _; assumption | intros ? _ ? ? ]
        | |- post (bind (abortCommand _ _) _) _ _ _ _ =>
            apply post_bind; apply post_any; [intros ? ? ? | intros ?]
        | |- ForceLeaveState <> ForceLeaveState -> _ =>
            let N := fresh in intros N; exfalso; apply N; reflexivity
        | |- isPlacing _ =>
            destruct Hp as (? & ? & ? & ? & ? & ?); placing
        end
      | step ]. }
Qed.

(** X20.  Scene events keep the state of placing: if a symbol is being
    placed and [processSceneEvent] returns anything but [ForceLeaveState],
    a symbol is still being placed afterwards, be it the same one, the next
    symbol of the component or the first symbol of the next component. *)
Theorem processSceneEvent_keeps_placing ev s w r s' w' :
  isPlacing s ->
  processSceneEvent ext ev s w = Returns r s' w' ->
  r <> ForceLeaveState ->
  isPlacing s'.
Proof.
  intros Hp H. exact (post_returns (@processSceneEvent_placing ev s w Hp) H).
Qed.

(** X21.  A mouse move and a click of the right button while an undo
    command is active: the move hands the new position to the edit command
    for the time being and passes the event on; the right click turns the
    last angle back by 90 degrees, hands it to the edit command and keeps
    the event.  Nothing else changes.  Both dereference the edit command:
    without one the behaviour is undefined. *)
Theorem mouse_move_and_right_click t scenePos button schematic s w :
  editor_getActiveSchematic ext w = Some schematic ->
  mIsUndoCmdActive s = true ->
  processSceneEvent ext
    (Some (SEE_RedirectedQEvent t
             (Some (QGraphicsSceneMouseEvent GraphicsSceneMouseMove scenePos button)))) s w =
  match mCurrentSymbolEditCommand s with
  | Some edit =>
      Returns PassToParentState s
        (cmdSymbolInstanceEdit_setPosition ext edit
           (view_scenePosToPoint ext scenePos w) true w)
  | None => Undefined
  end /\
  processSceneEvent ext
    (Some (SEE_RedirectedQEvent t
             (Some (QGraphicsSceneMouseEvent GraphicsSceneMousePress scenePos RightButton))))
    s w =
  match mCurrentSymbolEditCommand s with
  | Some edit =>
      Returns ForceStayInState
        (set_mLastAngle (Angle_sub (mLastAngle s) Angle_deg90) s)
        (cmdSymbolInstanceEdit_setRotation ext edit
           (Angle_sub (mLastAngle s) Angle_deg90) true w)
  | None => Undefined
  end.
Proof.
  intros Hs Ha. unfold processSceneEvent. cbn [getQEventFromSEE QEvent_type asMouseEvent].
  unfold bind, ask, gets, deref, tell, modify, ret. rewrite Hs, Ha. cbn [negb fst snd].
  destruct s as [active dlg angle gc sv item symbol [edit |]]; split; reflexivity.
Qed.

(** *** Starting and aborting through [process] *)

Lemma process_start_outcomes ev s w :
  getType ev = AbortCommand \/ getType ev = StartAddComponent ->
  post (process ext (Some ev)) s w
    (fun r s' =>
       r <> ForceLeaveState /\
       (r = ForceStayInState -> isPlacing s' /\ mLastAngle s' = mkAngle 0))
    (fun _ => True).
Proof.
  intros Ht. unfold process, processHandler.
  step. apply post_deref. intros ev0 E w0. inversion E; subst ev0. cbn beta.
  destruct Ht as [Ht | Ht]; rewrite Ht;
    repeat first
      [ exact I
      | match goal with
        | |- post (bind (startAddingComponent _ _ _) _) _ _ _ _ =>
            apply post_bind;
            eapply post_weaken;
            [ apply startAddingComponent_returns_placing
            | intros ? ? [? ?] ?
            | intros ? _ ]
        | |- post (abortCommand _ _) _ _ _ _ => apply post_abortCommand; intros
        | |- _ <> ForceLeaveState /\ _ => split; [discriminate |]
        | |- PassToParentState = ForceStayInState -> _ => discriminate
        | |- ForceStayInState = ForceStayInState -> _ => intros _; split
        | H1 : isPlacing ?x |- isPlacing ?x => exact H1
        | H1 : mLastAngle ?x = _ |- mLastAngle ?x = _ => rewrite H1; reflexivity
        end
      | step ].
Qed.

(** X22.  For an event of type [AbortCommand] or [StartAddComponent],
    [process] never asks to leave the state; when it returns
    [ForceStayInState], a symbol is being placed and the last angle is
    zero.  An [AbortCommand] event without a dialog, and an event of any
    type that the state does not know, are passed to the parent state and
    change nothing. *)
Theorem process_start_and_abort (ev : SEE_Base QPointF) s w :
  (getType ev = AbortCommand \/ getType ev = StartAddComponent ->
   forall r s' w',
     process ext (Some ev) s w = Returns r s' w' ->
     r <> ForceLeaveState /\
     (r = ForceStayInState -> isPlacing s' /\ mLastAngle s' = mkAngle 0)) /\
  (getType ev = AbortCommand -> mAddGenCompDialog s = None ->
   process ext (Some ev) s w = Returns PassToParentState s w) /\
  (forall n, getType ev = OtherEventType n ->
   process ext (Some ev) s w = Returns PassToParentState s w).
Proof.
  split; [| split].
  - intros Ht r s' w' H. exact (post_returns (process_start_outcomes ev s w Ht) H).
  - intros Ht Hd. unfold process. cbn [deref bind]. rewrite Ht.
    unfold bind, gets. rewrite Hd. reflexivity.
  - intros n Ht. unfold process. cbn [deref bind]. rewrite Ht. reflexivity.
Qed.

(** X23.  The state machine keeps an event only while a symbol is placed:
    if a symbol is being placed and [process] returns [ForceStayInState],
    for whatever event, a symbol is being placed afterwards. *)
Theorem process_stays_only_while_placing ev s w s' w' :
  isPlacing s ->
  process ext ev s w = Returns ForceStayInState s' w' ->
  isPlacing s'.
Proof.
  intros Hp H. destruct ev as [ev |]; [| discriminate H].
  destruct (getType ev) eqn:Ht.
  - exact (proj1 (proj2 (post_returns (process_start_outcomes ev s w (or_introl Ht)) H)
                   eq_refl)).
  - exact (proj1 (proj2 (post_returns (process_start_outcomes ev s w (or_intror Ht)) H)
                   eq_refl)).
  - unfold process in H. cbn [deref bind] in H. rewrite Ht in H.
    unfold bind, gets, deref, ask, tell, ret in H.
    destruct (mCurrentSymbolEditCommand s), (mCurrentSymbolToPlace s);
      try discriminate H.
    inversion H; subst; exact Hp.
  - unfold process in H. cbn [deref bind] in H. rewrite Ht in H.
    unfold bind, gets, deref, ask, tell, ret in H.
    destruct (mCurrentSymbolEditCommand s), (mCurrentSymbolToPlace s);
      try discriminate H.
    inversion H; subst; exact Hp.
  - unfold process in H. cbn [deref bind] in H. rewrite Ht in H.
    refine (post_returns (@processSceneEvent_placing (Some ev) s w Hp) H _).
    discriminate.
  - unfold process in H. cbn [deref bind] in H. rewrite Ht in H. discriminate H.
Qed.

(** X24.  After [abortCommand] has returned [false], the undo command is
    active but the edit command is already deleted and null.  The event
    handlers rely on the flag alone: the next mouse move, right click or
    rotation dereferences the null edit command, which is undefined
    behaviour. *)
Theorem failed_abort_leaves_dangling_state showErrMsgBox s w s' w' :
  abortCommand ext showErrMsgBox s w = Returns false s' w' ->
  mIsUndoCmdActive s' = true /\
  mCurrentSymbolEditCommand s' = None /\
  (forall t scenePos button schematic w2,
      editor_getActiveSchematic ext w2 = Some schematic ->
      processSceneEvent ext
        (Some (SEE_RedirectedQEvent t
                 (Some (QGraphicsSceneMouseEvent GraphicsSceneMouseMove scenePos button))))
        s' w2 = Undefined /\
      processSceneEvent ext
        (Some (SEE_RedirectedQEvent t
                 (Some (QGraphicsSceneMouseEvent GraphicsSceneMousePress scenePos
                          RightButton))))
        s' w2 = Undefined) /\
  (forall w2,
      process ext (Some (SEE_Plain QPointF Edit_RotateCW)) s' w2 = Undefined /\
      process ext (Some (SEE_Plain QPointF Edit_RotateCCW)) s' w2 = Undefined).
Proof.
  intros H.
  assert (P : post (abortCommand ext showErrMsgBox) s w
                (fun r s' => r = false ->
                   mIsUndoCmdActive s' = true /\ mCurrentSymbolEditCommand s' = None)
                (fun _ => True)).
  { apply post_abortCommand.
    - discriminate.
    - intros Ha _ _. simpl. split; [exact Ha | reflexivity]. }
  destruct (post_returns P H eq_refl) as [Ha He].
  split; [exact Ha |]. split; [exact He |]. split.
  - intros t scenePos button schematic w2 Hs.
    unfold processSceneEvent. cbn [getQEventFromSEE QEvent_type asMouseEvent].
    unfold bind, ask, gets, deref, tell, modify, ret. rewrite Hs, Ha. cbn [negb fst snd].
    simpl. rewrite He. split; reflexivity.
  - intros w2. unfold process. cbn [deref bind getType].
    unfold bind, gets, deref. rewrite He. split; reflexivity.
Qed.


End MachineFacts.
(** ** Concrete runs *)

(** C6, as first stated, fails: the component has no symbol, so the start
    fails after the undo command was begun; the undo stack refuses to abort,
    and [entry] returns [false] with the undo command still active. *)
Lemma entry_returns_false_with_active_command :
  entry (simulate refusingScenario) (Some startEvent) SES_AddComponents_new [] =
  Returns false
    (mkState true None (mkAngle 0) (Some 1) (Some 2) None None None)
    [UndoStack_abortCommand; QMessageBox_critical RuntimeError;
     UndoStack_appendToCommand 10;
     UndoStack_beginCommand "Add Generic Component to Schematic"] /\
  mIsUndoCmdActive (mkState true None (mkAngle 0) (Some 1) (Some 2) None None None) = true.
Proof. split; reflexivity. Qed.

(** The amended C6 on a failed start: the component has no symbol, so the
    start throws after the undo command was begun; the undo stack aborts,
    and [entry] returns [false] with no dialog and no active command. *)
Lemma entry_failed_start_example :
  entry (simulate noSymbolScenario) (Some startEvent) SES_AddComponents_new [] =
  Returns false (mkState false None (mkAngle 0) None None None None None)
    [UndoStack_abortCommand; QMessageBox_critical RuntimeError;
     UndoStack_appendToCommand 10;
     UndoStack_beginCommand "Add Generic Component to Schematic"] /\
  mAddGenCompDialog (mkState false None (mkAngle 0) None None None None None) = None /\
  exists e s1 w1,
    startAddingComponent (simulate noSymbolScenario) (mkQUuid 1) (mkQUuid 2)
      (set_mLastAngle (Angle_setAngleMicroDeg 0) SES_AddComponents_new) [] =
    Throws e s1 w1 /\
    (mIsUndoCmdActive (mkState false None (mkAngle 0) None None None None None) = true <->
     mIsUndoCmdActive s1 = true /\
     exists e2 w2,
       undo_abortCommand (simulate noSymbolScenario)
         (worldAtAbort (simulate noSymbolScenario) s1
            (worldAfterStartError (simulate noSymbolScenario) e w1)) =
       (Throw e2, w2)).
Proof.
  assert (Hrun :
    entry (simulate noSymbolScenario) (Some startEvent) SES_AddComponents_new [] =
    Returns false (mkState false None (mkAngle 0) None None None None None)
      [UndoStack_abortCommand; QMessageBox_critical RuntimeError;
       UndoStack_appendToCommand 10;
       UndoStack_beginCommand "Add Generic Component to Schematic"])
    by reflexivity.
  split; [exact Hrun |].
  exact (proj2 (proj2 (entry_accepts_only_StartAddComponent (simulate noSymbolScenario)))
           startEvent (mkQUuid 1) (mkQUuid 2) _ _ _ _ eq_refl eq_refl Hrun).
Defined.

(** C7, as first stated, fails: the component does not have the symbol
    variant, the start fails before an undo command is begun, [entry]
    handles the error without calling [abortCommand], and the component
    stays set. *)
Lemma entry_handled_error_keeps_component :
  entry (simulate noVariantScenario) (Some startEvent) SES_AddComponents_new [] =
  Returns false (mkState false None (mkAngle 0) (Some 1) None None None None)
    [QMessageBox_critical LogicError] /\
  mGenComp (mkState false None (mkAngle 0) (Some 1) None None None None) = Some 1 /\
  ~ isReset (mkState false None (mkAngle 0) (Some 1) None None None None).
Proof.
  split; [reflexivity |]. split; [reflexivity |].
  intros (_ & _ & Hg & _). discriminate Hg.
Qed.

(** The amended C7 on a successful [exit] while a symbol is being placed. *)
Lemma exit_resets_example :
  exit (simulate plainScenario) None placingState [] =
  Returns true (mkState false None (mkAngle 0) None None None None None)
    [ToolAddComponent_setChecked false; UndoStack_abortCommand; Edit_delete 14] /\
  isReset (mkState false None (mkAngle 0) None None None None None).
Proof.
  assert (Hrun :
    exit (simulate plainScenario) None placingState [] =
    Returns true (mkState false None (mkAngle 0) None None None None None)
      [ToolAddComponent_setChecked false; UndoStack_abortCommand; Edit_delete 14])
    by reflexivity.
  split; [exact Hrun |].
  exact (proj1 (proj2 (reset_after_abort_exit_and_handled_errors (simulate plainScenario)))
           None _ _ _ _ Hrun).
Defined.


(** A handled error in [process] on a concrete run: the start fails after
    the undo command was begun (the component has no symbol), the error is
    shown, the event is passed to the parent state, and the undo command
    stays active. *)
Lemma process_handled_error_keeps_command_active :
  process (simulate noSymbolScenario) (Some startEvent) SES_AddComponents_new [] =
  Returns PassToParentState
    (mkState true None (mkAngle 0) (Some 1) (Some 2) None None None)
    [QMessageBox_critical RuntimeError; UndoStack_appendToCommand 10;
     UndoStack_beginCommand "Add Generic Component to Schematic"].
Proof.
  exact (@process_handler_does_not_abort Calls unit unit unit
           (simulate noSymbolScenario) startEvent (mkQUuid 1) (mkQUuid 2)
           SES_AddComponents_new [] _ _ RuntimeError _ _
           eq_refl eq_refl eq_refl eq_refl).
Defined.

(** C10 on a concrete run: a clockwise rotation while a symbol is placed. *)
Lemma process_rotate_example :
  process (simulate plainScenario) (Some (SEE_Plain unit Edit_RotateCW)) placingState [] =
  Returns ForceStayInState placingState
    [Edit_rotate 14 (mkAngle 90000000)
       (mkPoint (mkLength 2540000) (mkLength 5080000)) true].
Proof.
  exact (process_rotate (simulate plainScenario) (SEE_Plain unit Edit_RotateCW)
           placingState [] (or_introl eq_refl)).
Defined.

(** ** Concrete runs of the further properties *)

Lemma placingState_isPlacing : isPlacing placingState.
Proof. unfold isPlacing, placingState. simpl. repeat split; discriminate. Qed.

Lemma abortCommand_idle_example :
  abortCommand (simulate plainScenario) true SES_AddComponents_new [] =
  Returns true SES_AddComponents_new [].
Proof.
  apply (proj1 (abortCommand_idle_and_frame (simulate plainScenario))).
  unfold isReset, SES_AddComponents_new. simpl. repeat split.
Defined.

Lemma exit_refused_example :
  exit (simulate refusingScenario) None placingState [] =
  Returns false (mkState true None (mkAngle 0) (Some 1) (Some 2) (Some 3) (Some 13) None)
    [QMessageBox_critical RuntimeError; UndoStack_abortCommand; Edit_delete 14] /\
  mIsUndoCmdActive
    (mkState true None (mkAngle 0) (Some 1) (Some 2) (Some 3) (Some 13) None) = true /\
  (exists e w2,
      undo_abortCommand (simulate refusingScenario)
        (worldAtAbort (simulate refusingScenario) placingState []) = (Throw e, w2)) /\
  (exists s' w', exit (simulate plainScenario) None placingState [] = Returns true s' w').
Proof.
  assert (Hrun :
    exit (simulate refusingScenario) None placingState [] =
    Returns false (mkState true None (mkAngle 0) (Some 1) (Some 2) (Some 3) (Some 13) None)
      [QMessageBox_critical RuntimeError; UndoStack_abortCommand; Edit_delete 14])
    by reflexivity.
  split; [exact Hrun |].
  destruct (proj1 (proj2 (exit_outcomes (simulate refusingScenario))) None _ _ _ _ Hrun)
    as [[_ Hthrew] [Hactive _]].
  split; [exact Hactive |]. split; [exact Hthrew |].
  apply (proj1 (exit_outcomes (simulate plainScenario)) None placingState []).
  right. reflexivity.
Defined.

Lemma entry_started_example :
  isPlacing placingState /\
  entry (simulate plainScenario) (Some startEvent) SES_AddComponents_new [] =
  Returns true placingState
    [ToolAddComponent_setChecked true; Edit_setRotation 14 (mkAngle 0) true;
     UndoStack_appendToCommand 12; UndoStack_appendToCommand 10;
     UndoStack_beginCommand "Add Generic Component to Schematic"].
Proof.
  assert (Hrun :
    entry (simulate plainScenario) (Some startEvent) SES_AddComponents_new [] =
    Returns true placingState
      [ToolAddComponent_setChecked true; Edit_setRotation 14 (mkAngle 0) true;
       UndoStack_appendToCommand 12; UndoStack_appendToCommand 10;
       UndoStack_beginCommand "Add Generic Component to Schematic"])
    by reflexivity.
  split; [| exact Hrun].
  exact (proj1 (proj2 (started_means_placing (simulate plainScenario)) _ _ _ _ _ Hrun)).
Defined.

Lemma unknown_component_example :
  startAddingComponent (simulate unknownComponentScenario) (mkQUuid 1) (mkQUuid 2)
    SES_AddComponents_new [] = Undefined /\
  entry (simulate unknownComponentScenario) (Some startEvent) SES_AddComponents_new [] =
  Undefined.
Proof.
  pose proof (@unknown_component_is_dereferenced Calls unit unit unit
                (simulate unknownComponentScenario) (mkQUuid 1) (mkQUuid 2) 0
                SES_AddComponents_new [] eq_refl eq_refl eq_refl eq_refl) as (H1 & H2 & _).
  split; [exact H1 | exact H2].
Defined.

Lemma no_schematic_example :
  startAddingComponent (simulate noSchematicScenario) (mkQUuid 1) (mkQUuid 2)
    SES_AddComponents_new [] = Throws LogicError SES_AddComponents_new [] /\
  startAddingComponent (simulate rejectedDialogScenario) QUuid_null QUuid_null
    SES_AddComponents_new [] =
  Throws UserCanceled (set_mAddGenCompDialog (Some 7) SES_AddComponents_new) [].
Proof.
  pose proof (startAddingComponent_early_errors (simulate noSchematicScenario))
    as (H1 & _ & _).
  pose proof (startAddingComponent_early_errors (simulate rejectedDialogScenario))
    as (_ & _ & H3).
  split.
  - exact (H1 (mkQUuid 1) (mkQUuid 2) SES_AddComponents_new [] eq_refl).
  - exact (H3 QUuid_null QUuid_null 0 7 SES_AddComponents_new [] [] [] eq_refl eq_refl
              eq_refl eq_refl eq_refl).
Defined.

Lemma left_click_keeps_placing_example :
  processSceneEvent (simulate twoSymbolsScenario) (Some leftClickEvent) placingState [] =
  Returns ForceStayInState
    (mkState true None (mkAngle 0) (Some 1) (Some 2) (Some 4) (Some 13) (Some 14))
    [Edit_setRotation 14 (mkAngle 0) true; UndoStack_appendToCommand 12;
     UndoStack_beginCommand "Add Symbol to Schematic"; UndoStack_endCommand;
     UndoStack_appendToCommand 14;
     Edit_setPosition 14 (mkPoint (mkLength 2540000) (mkLength 5080000)) false] /\
  isPlacing (mkState true None (mkAngle 0) (Some 1) (Some 2) (Some 4) (Some 13) (Some 14)).
Proof.
  assert (Hrun :
    processSceneEvent (simulate twoSymbolsScenario) (Some leftClickEvent) placingState [] =
    Returns ForceStayInState
      (mkState true None (mkAngle 0) (Some 1) (Some 2) (Some 4) (Some 13) (Some 14))
      [Edit_setRotation 14 (mkAngle 0) true; UndoStack_appendToCommand 12;
       UndoStack_beginCommand "Add Symbol to Schematic"; UndoStack_endCommand;
       UndoStack_appendToCommand 14;
       Edit_setPosition 14 (mkPoint (mkLength 2540000) (mkLength 5080000)) false])
    by reflexivity.
  split; [exact Hrun |].
  refine (@processSceneEvent_keeps_placing Calls unit unit unit (simulate twoSymbolsScenario)
            (Some leftClickEvent) placingState [] _ _ _ placingState_isPlacing Hrun _).
  discriminate.
Defined.

Lemma mouse_move_and_right_click_example :
  processSceneEvent (simulate plainScenario) (Some moveEvent) placingState [] =
  Returns PassToParentState placingState
    [Edit_setPosition 14 (mkPoint (mkLength 2540000) (mkLength 5080000)) true] /\
  processSceneEvent (simulate plainScenario) (Some rightClickEvent) placingState [] =
  Returns ForceStayInState
    (mkState true None (mkAngle (-90000000)) (Some 1) (Some 2) (Some 3) (Some 13) (Some 14))
    [Edit_setRotation 14 (mkAngle (-90000000)) true].
Proof.
  exact (@mouse_move_and_right_click Calls unit unit unit (simulate plainScenario)
           SchematicSceneEvent tt (OtherButton 0) 0 placingState [] eq_refl eq_refl).
Defined.

Lemma process_abort_without_dialog_example :
  process (simulate plainScenario) (Some abortEvent) placingState [] =
  Returns PassToParentState placingState [].
Proof.
  exact (proj1 (proj2 (@process_start_and_abort Calls unit unit unit
                         (simulate plainScenario) abortEvent placingState []))
           eq_refl eq_refl).
Defined.

Lemma process_restart_example :
  isPlacing placingState /\
  process (simulate plainScenario) (Some startEvent) placingState [] =
  Returns ForceStayInState placingState
    [Edit_setRotation 14 (mkAngle 0) true; UndoStack_appendToCommand 12;
     UndoStack_appendToCommand 10;
     UndoStack_beginCommand "Add Generic Component to Schematic";
     UndoStack_abortCommand; Edit_delete 14].
Proof.
  assert (Hrun :
    process (simulate plainScenario) (Some startEvent) placingState [] =
    Returns ForceStayInState placingState
      [Edit_setRotation 14 (mkAngle 0) true; UndoStack_appendToCommand 12;
       UndoStack_appendToCommand 10;
       UndoStack_beginCommand "Add Generic Component to Schematic";
       UndoStack_abortCommand; Edit_delete 14])
    by reflexivity.
  split; [| exact Hrun].
  exact (@process_stays_only_while_placing Calls unit unit unit (simulate plainScenario)
           (Some startEvent) placingState [] _ _ placingState_isPlacing Hrun).
Defined.

Lemma failed_abort_example :
  abortCommand (simulate refusingScenario) true placingState [] =
  Returns false (mkState true None (mkAngle 0) (Some 1) (Some 2) (Some 3) (Some 13) None)
    [QMessageBox_critical RuntimeError; UndoStack_abortCommand; Edit_delete 14] /\
  processSceneEvent (simulate refusingScenario) (Some moveEvent)
    (mkState true None (mkAngle 0) (Some 1) (Some 2) (Some 3) (Some 13) None)
    [QMessageBox_critical RuntimeError; UndoStack_abortCommand; Edit_delete 14] =
  Undefined.
Proof.
  assert (Hrun :
    abortCommand (simulate refusingScenario) true placingState [] =
    Returns false (mkState true None (mkAngle 0) (Some 1) (Some 2) (Some 3) (Some 13) None)
      [QMessageBox_critical RuntimeError; UndoStack_abortCommand; Edit_delete 14])
    by reflexivity.
  split; [exact Hrun |].
  destruct (@failed_abort_leaves_dangling_state Calls unit unit unit
              (simulate refusingScenario) true placingState [] _ _ Hrun)
    as (_ & _ & Hscene & _).
  exact (proj1 (Hscene SchematicSceneEvent tt (OtherButton 0) 0 _ eq_refl)).
Defined.


End AddComponentsSpec.
